(** * napari-language-packs: the catalog update script and the locale hook

    A shallow embedding of [scripts/update_catalogs.py] and of
    [template/hooks/pre_gen_project.py], and the properties of the
    repository-map driven synchronisation that the specification states.

    Python [str] values are [string]s (sequences of bytes: for UTF-8 text the
    byte-wise lexicographic order is the code point order Python compares by),
    [dict]s with string keys are [gmap string _], Python lists are [list]s.
    The YAML reader and writer, [git], [pybabel] and Babel's locale parser
    are outside the repository: files read through [yaml.safe_load] are kept
    in parsed form, the tools are parameters. *)

From stdpp Require Import gmap strings list sorting.
From Stdlib Require Import ZArith.

Set Warnings "-register-all".

(** ** Python string methods used by the scripts *)
Module PyStr.

(** The double quote and the line feed, which have no escape in a literal. *)
Definition dquote : string := String (Ascii.ascii_of_nat 34) "".
Definition nl : string := String (Ascii.ascii_of_nat 10) "".

(** [s.startswith(p)] *)
Definition startswith (s p : string) : bool := String.prefix p s.

(** [s.endswith(p)] *)
Definition endswith (s p : string) : bool :=
  String.prefix (String.rev p) (String.rev s).

(** [sub in s]: some suffix of [s] starts with [sub]. *)
Fixpoint contains (sub s : string) : bool :=
  String.prefix sub s ||
  match s with
  | "" => false
  | String _ s' => contains sub s'
  end.

(** [s.replace(old, new)] for a non-empty [old]: one scan from the left;
    at a position where [old] starts, [new] is emitted and the scan resumes
    after the occurrence ([skip] counts the characters of the occurrence
    still to be passed over), elsewhere the character is copied. *)
Fixpoint replace_scan (old new : string) (skip : nat) (s : string) : string :=
  match s with
  | "" => ""
  | String c s' =>
      match skip with
      | S k => replace_scan old new k s'
      | O =>
          if String.prefix old s
          then new +:+ replace_scan old new (String.length old - 1) s'
          else String c (replace_scan old new 0 s')
      end
  end.

(** [s.replace("", new)]: [new] before every character and at the end. *)
Fixpoint intersperse (new s : string) : string :=
  match s with
  | "" => new
  | String c s' => new +:+ String c (intersperse new s')
  end.

Definition replace (s old new : string) : string :=
  match old with
  | "" => intersperse new s
  | _ => replace_scan old new 0 s
  end.

End PyStr.

(** ** [os.path.join] of [posixpath] *)
Module PosixPath.

(** One round of the loop of [posixpath.join]: an absolute component
    restarts the path, otherwise it is appended, after a separator unless
    the path is empty or already ends with one. *)
Definition join_step (path b : string) : string :=
  if PyStr.startswith b "/" then b
  else if bool_decide (path = "") || PyStr.endswith path "/" then path +:+ b
  else path +:+ "/" +:+ b.

Definition join (a : string) (p : list string) : string :=
  fold_left join_step p a.

End PosixPath.

(** ** Parsed YAML documents *)
Inductive yaml :=
| YStr (s : string)
| YSeq (l : list yaml)
| YMap (m : gmap string yaml).

(** A value of [repository-map.yml]: [url] and [current-version-tag]. *)
Record PackageEntry := mkPackageEntry {
  url : string;
  current_version_tag : string
}.

(** ** [scripts/update_catalogs.py] *)
Module UpdateCatalogs.

Definition REPOSITORIES_FOLDER : string := "repos".
Definition LANGUAGE_PACKS_FOLDER : string := "language-packs".
Definition REPO_MAP_FILE : string := "repository-map.yml".
Definition CROWDIN_FILE : string := "crowdin.yml".

(** [sorted(data)]: the keys of the dict in increasing order. *)
Definition sorted {A} (data : gmap string A) : list string :=
  merge_sort String.le (map_to_list data).*1.

(** A [{"source": ..., "translation": ...}] entry of the file list. *)
Definition file_entry (source translation : string) : yaml :=
  YMap (<["source" := YStr source]> (<["translation" := YStr translation]> ∅)).

(** The entry the list starts with, for the [napari] package itself. *)
Definition root_entry : yaml :=
  file_entry "/napari/locale/napari.pot"
    "/napari/locale/%locale_with_underscore%/LC_MESSAGES/%file_name%.po".

(** The entry appended for [pkg_name] in the loop. *)
Definition plugin_entry (pkg_name : string) : yaml :=
  let pkg_name_norm := PyStr.replace pkg_name "-" "_" in
  file_entry
    ("/plugins/" +:+ pkg_name_norm +:+ "/locale/" +:+ pkg_name_norm +:+ ".pot")
    ("/plugins/" +:+ pkg_name_norm +:+ "/locale"
       +:+ "/%locale_with_underscore%/LC_MESSAGES/%file_name%.po").

(** The list [packages] of [update_crowdin_config] once its loop is over. *)
Definition crowdin_files {A} (data : gmap string A) : list yaml :=
  fold_left
    (fun (packages : list yaml) pkg_name =>
       if bool_decide (pkg_name ≠ "napari")
       then (packages ++ [plugin_entry pkg_name])%list
       else packages)
    (sorted data)
    [root_entry].

(** *** The machine the script runs on *)

(** What the script reads and writes on disk. [repository-map.yml] and
    [crowdin.yml] are held as [yaml.safe_load] returns them; [isdir] and
    [all_dirs] answer [os.path.isdir] and the [os.walk] of [_get_all_dirs]
    at this moment; [texts] are the files opened as text, by path. *)
Record Disk := mkDisk {
  repository_map_yml : gmap string PackageEntry;
  crowdin_yml : gmap string yaml;
  isdir : string → bool;
  all_dirs : string → list string;
  texts : gmap string string
}.

(** What the script does to the outside, in the order it does it. The two
    notices of [click.echo] carry no text here: the closing one shows the
    elapsed time, which is not modelled. *)
Inductive event :=
| Popen (args : list string) (cwd : string)
| WriteYaml (fpath : string) (data : gmap string yaml)
| WriteText (fpath : string) (data : string)
| EchoUpdating (package_name : string)
| EchoUpdated.

Record World := mkWorld {
  disk : Disk;
  trace : list event
}.

(** The exceptions that can leave the script. *)
Inductive exn :=
| KeyError (key : string)
| FileNotFoundError (fpath : string)
| NotADirectoryError (fpath : string)
| SystemExit (code : Z).

Inductive outcome (A : Type) :=
| Returned (a : A)
| Raised (e : exn).
Arguments Returned {A} a.
Arguments Raised {A} e.

(** A piece of the script: it runs in a world and returns or raises. *)
Definition script (A : Type) : Type := World → outcome A * World.

#[export] Instance script_ret : MRet script :=
  λ A a w, (Returned a, w).
#[export] Instance script_bind : MBind script :=
  λ A B f m w,
    match m w with
    | (Returned a, w') => f a w'
    | (Raised e, w') => (Raised e, w')
    end.

Definition raise {A} (e : exn) : script A := λ w, (Raised e, w).
Definition read {A} (f : Disk → A) : script A := λ w, (Returned (f (disk w)), w).
Definition emit (e : event) : script unit :=
  λ w, (Returned (), mkWorld (disk w) (trace w ++ [e])).
Definition modify (f : Disk → Disk) : script unit :=
  λ w, (Returned (), mkWorld (f (disk w)) (trace w)).

(** [d[key]] *)
Definition getitem {A} (d : gmap string A) (key : string) : script A :=
  match d !! key with
  | Some v => mret v
  | None => raise (KeyError key)
  end.

(** [for x in l: body(x)] *)
Fixpoint for_each {A} (l : list A) (body : A → script unit) : script unit :=
  match l with
  | [] => mret ()
  | x :: l' => body x ;; for_each l' body
  end.

(** The status the process ends with. *)
Definition exit_status (r : outcome unit) : Z :=
  match r with
  | Returned _ => 0
  | Raised (SystemExit code) => code
  | Raised _ => 1
  end%Z.

Section Script.

(** The directory above the one of the script. *)
Variable REPO_ROOT : string.

(** What running a command in a directory, and waiting for it to end,
    does to the disk: [git] and [pybabel] are not part of the repository. *)
Variable run_command : list string → string → Disk → Disk.

Definition load_repo_map : script (gmap string PackageEntry) :=
  read repository_map_yml.

Definition save_crowdin (data : gmap string yaml) : script unit :=
  let fpath := PosixPath.join REPO_ROOT [CROWDIN_FILE] in
  modify (λ d, mkDisk (repository_map_yml d) data (isdir d) (all_dirs d) (texts d)) ;;
  emit (WriteYaml fpath data).

Definition load_crowdin : script (gmap string yaml) :=
  read crowdin_yml.

Definition update_crowdin_config : script unit :=
  data ← load_repo_map ;
  crowdin_data ← load_crowdin ;
  _files ← getitem crowdin_data "files" ;
  let packages := crowdin_files data in
  let crowdin_data := <["files" := YSeq packages]> crowdin_data in
  save_crowdin crowdin_data.

(** What [subprocess.Popen(args, cwd=cwd)] raises when the process cannot
    change to [cwd]: [NotADirectoryError] when a file is there,
    [FileNotFoundError] when nothing is. *)
Definition chdir_error (d : Disk) (cwd : string) : exn :=
  if bool_decide (is_Some (texts d !! cwd))
  then NotADirectoryError cwd
  else FileNotFoundError cwd.

(** [subprocess.Popen(args, cwd=cwd)] then [p.communicate()]: the command
    starts only when [cwd] is a directory, and the call raises otherwise;
    the exit status of a command that ran is not looked at. The programs
    themselves, [git] and [pybabel], are taken to be installed, and a
    directory that is there can be entered. *)
Definition subprocess (args : list string) (cwd : string) : script unit :=
  d ← read id ;
  if isdir d cwd
  then
    emit (Popen args cwd) ;;
    modify (run_command args cwd)
  else raise (chdir_error d cwd).

Definition update_repo (package_name url version : string) : script unit :=
  let repos_path := PosixPath.join REPO_ROOT [REPOSITORIES_FOLDER] in
  let clone_path := PosixPath.join repos_path [package_name] in
  is_dir ← read (λ d, isdir d clone_path) ;
  (if negb is_dir
   then subprocess ["git"; "clone"; url +:+ ".git"; package_name] repos_path
   else subprocess ["git"; "fetch"; "origin"] repos_path) ;;
  subprocess ["git"; "checkout"; version] clone_path.

Definition _get_all_dirs (root : string) : script (list string) :=
  read (λ d, all_dirs d root).

(** The path of the catalog of [package_name]. *)
Definition catalog_path (package_name : string) : string :=
  if bool_decide (package_name = "napari")
  then PosixPath.join REPO_ROOT [package_name; "locale"; package_name +:+ ".pot"]
  else PosixPath.join REPO_ROOT
         ["plugins"; package_name; "locale"; package_name +:+ ".pot"].

(** [open(fpath, "r")] and [fh.read()] *)
Definition read_text (fpath : string) : script string :=
  d ← read texts ;
  match d !! fpath with
  | Some data => mret data
  | None => raise (FileNotFoundError fpath)
  end.

(** [open(fpath, "w")] and [fh.write(data)] *)
Definition write_text (fpath data : string) : script unit :=
  modify (λ d, mkDisk (repository_map_yml d) (crowdin_yml d) (isdir d)
                 (all_dirs d) (<[fpath := data]> (texts d))) ;;
  emit (WriteText fpath data).

Definition update_catalog (package_name version : string) : script unit :=
  let package_repo_dir :=
    PosixPath.join REPO_ROOT [REPOSITORIES_FOLDER; package_name] in
  let output := catalog_path package_name in
  let keywords :=
    ["-k"; "_:1"; "-k"; "_p:1c,2"; "-k"; "_n:1,2"; "-k"; "_np:1c,2,3"] in
  folders ← _get_all_dirs package_repo_dir ;
  let args :=
    (["pybabel"; "extract"] ++ folders
       ++ ["-o"; output; "--no-default-keywords"; "-w"; "100000"]
       ++ keywords)%list in
  subprocess args REPO_ROOT ;;
  data ← read_text output ;
  let data := PyStr.replace data (package_repo_dir +:+ "/") "" in
  write_text output data.

(** The body of the loop of the main block. *)
Definition update_package (data : gmap string PackageEntry)
    (package_name : string) : script unit :=
  emit (EchoUpdating package_name) ;;
  entry ← getitem data package_name ;
  let url := url entry in
  let version := current_version_tag entry in
  update_repo package_name url version ;;
  update_catalog package_name version.

(** The main block, run with [sys.argv[1:] = args]. *)
Definition main (args : list string) : script unit :=
  data ← load_repo_map ;
  let packages : list string := [] in
  update_crowdin_config ;;
  packages ←
    (if bool_decide (length args = 1)
     then
       let package_name := default "" (args !! 0) in
       if bool_decide (is_Some (data !! package_name))
       then mret [package_name]
       else mret packages
     else if bool_decide (length args = 0)
     then mret (sorted data)
     else raise (SystemExit 0)) ;
  for_each packages (update_package data) ;;
  emit EchoUpdated.

End Script.

End UpdateCatalogs.

(** ** [template/hooks/pre_gen_project.py] *)
Module PreGenProject.

(** The two attributes of a [babel.Locale] the hook reads; a locale
    without a territory has [territory = None]. *)
Record Locale := mkLocale {
  language : string;
  territory : option string
}.

(** How a run of the hook ends: what it printed, and the exit status. *)
Record run := mkRun {
  printed : list string;
  status : Z
}.

Definition ERROR_4_LETTER : string :=
  "ERROR: `locale` must be 4 letter code, like es-ES." +:+ PyStr.nl
    +:+ "       See http://www.lingoes.net/en/translator/langcode.htm".

Definition ERROR_INVALID (locale : string) : string :=
  "ERROR: Locale " +:+ PyStr.dquote +:+ locale +:+ PyStr.dquote
    +:+ " is invalid!".

Definition ERROR_VARIANT : string :=
  "ERROR: Locales with language variants must use `-` and not `_`".

Definition ERROR_UNDERSCORE : string :=
  "ERROR: `locale_underscore` must use `_` and not `-`".

Section Hook.

(** [Locale.parse] of Babel; [None] when it raises. *)
Variable Locale_parse : string → option Locale.

(** The [try] block: [None] when an exception is caught ([Locale.parse]
    raised, or [territory] is [None] and the concatenation raised
    [TypeError]), else whether the rebuilt identifier differs. *)
Definition parsed_differs (locale_underscore : string) : option bool :=
  babel_locale ← Locale_parse locale_underscore ;
  territory ← territory babel_locale ;
  let parsed_locale := language babel_locale +:+ "_" +:+ territory in
  Some (bool_decide (parsed_locale ≠ locale_underscore)).

(** The hook, with the two template variables filled in. *)
Definition pre_gen_project (locale locale_underscore : string) : run :=
  if negb (PyStr.contains "-" locale)
  then mkRun [ERROR_4_LETTER] 1
  else
    match parsed_differs locale_underscore with
    | Some true => mkRun [ERROR_INVALID locale] 1
    | None => mkRun [ERROR_INVALID locale] 1
    | Some false =>
        if PyStr.contains "_" locale
        then mkRun [ERROR_VARIANT] 1
        else if PyStr.contains "-" locale_underscore
        then mkRun [ERROR_UNDERSCORE] 1
        else mkRun [] 0
    end.

End Hook.

End PreGenProject.

(** ** [_get_all_dirs] over a directory tree *)
Module DirTree.

(** What is found under a name: a file, or a directory with its entries in
    the order [os.scandir] lists them. There are no symbolic links and
    every directory can be read. *)
Inductive node :=
| File
| Dir (entries : list (string * node)).

(** The names of the entries that are directories, and of the others. *)
Definition dirs_of (entries : list (string * node)) : list string :=
  omap (λ entry, match entry.2 with Dir _ => Some entry.1 | File => None end)
    entries.

Definition nondirs_of (entries : list (string * node)) : list string :=
  omap (λ entry, match entry.2 with Dir _ => None | File => Some entry.1 end)
    entries.

(** [os.walk(top, topdown=False)]: the triples of the subdirectories, in
    the order of the listing, then the triple of [top] itself. A [top] that
    is not a directory gives nothing. *)
Fixpoint walk (top : string) (n : node)
    : list (string * list string * list string) :=
  match n with
  | File => []
  | Dir entries =>
      ((fix walk_dirs (es : list (string * node)) :=
          match es with
          | [] => []
          | (name, child) :: es' =>
              match child with
              | Dir _ => walk (PosixPath.join top [name]) child
              | File => []
              end ++ walk_dirs es'
          end) entries
       ++ [(top, dirs_of entries, nondirs_of entries)])%list
  end.

(** [_get_all_dirs(root)], the tree under [root] being [n]. *)
Definition _get_all_dirs (root : string) (n : node) : list string :=
  fold_left
    (λ (folders : list string) '(root, dirs, _files),
       fold_left
         (λ (folders : list string) name,
            (folders ++ [PosixPath.join root [name]])%list)
         dirs folders)
    (walk root n) [].

End DirTree.

(** * Vocabulary of the properties *)

Import UpdateCatalogs.

(** The world a piece of the script leaves, and how it ended. *)
Definition world_after {A} (s : script A) (w : World) : World := (s w).2.
Definition outcome_of {A} (s : script A) (w : World) : outcome A := (s w).1.

(** The non-root packages, in the order of the loop. *)
Definition plugin_names {A} (data : gmap string A) : list string :=
  filter (λ pkg_name, pkg_name ≠ "napari") (sorted data).

(** The file-list section of a translation-service configuration. *)
Definition file_list (crowdin_data : gmap string yaml) : option yaml :=
  crowdin_data !! "files".

(** The configuration on disk once the Synchronizer has run in [w]. *)
Definition synced (REPO_ROOT : string) (w : World) : gmap string yaml :=
  crowdin_yml (disk (world_after (update_crowdin_config REPO_ROOT) w)).

(** *** Concrete machines *)

(** A repository map with the root package and a plugin. *)
Definition example_map : gmap string PackageEntry :=
  {[ "napari" := mkPackageEntry "https://github.com/napari/napari" "v0.4.5";
     "plugin-a" := mkPackageEntry "https://example.com/plugin-a" "main" ]}.

(** A repository map without the root package. *)
Definition plugins_only_map : gmap string PackageEntry :=
  {[ "plugin-a" := mkPackageEntry "https://example.com/plugin-a" "main" ]}.

(** The sections of a configuration other than the file list. *)
Definition example_sections : gmap string yaml :=
  {[ "project_id_env" := YStr "CROWDIN_PROJECT_ID";
     "preserve_hierarchy" := YStr "true" ]}.

Definition example_crowdin : gmap string yaml :=
  <["files" := YSeq []]> example_sections.

Definition stale_crowdin : gmap string yaml :=
  <["files" := YSeq [YStr "stale"]]> example_sections.

(** A disk with the repository root [/lp] and its [repos] folder, and no
    mirror and no catalog yet. *)
Definition fresh_disk (data : gmap string PackageEntry)
    (crowdin_data : gmap string yaml) : Disk :=
  mkDisk data crowdin_data
    (λ path, bool_decide (path = "/lp") || bool_decide (path = "/lp/repos"))
    (λ _, []) ∅.

Definition example_world : World := mkWorld (fresh_disk example_map example_crowdin) [].
Definition stale_world : World := mkWorld (fresh_disk example_map stale_crowdin) [].
Definition plugins_only_world : World :=
  mkWorld (fresh_disk plugins_only_map example_crowdin) [].

(** The commands of a trace, each with the directory it ran in. *)
Definition commands (t : list event) : list (list string * string) :=
  omap (λ e, match e with Popen args cwd => Some (args, cwd) | _ => None end) t.

(** Tools that leave the disk as it is. *)
Definition idle_tools : list string → string → Disk → Disk := λ _ _ d, d.

(** A machine where the mirror of [napari] is already cloned. *)
Definition mirrored_world : World :=
  mkWorld
    (mkDisk example_map example_crowdin
       (λ path, bool_decide (path = "/lp") || bool_decide (path = "/lp/repos")
                || bool_decide (path = "/lp/repos/napari"))
       (λ _, []) ∅)
    [].

(** The command the Mirror Updater starts with on disk [d]. *)
Definition first_git_command (REPO_ROOT : string) (d : Disk)
    (package_name url : string) : list string :=
  if isdir d (PosixPath.join (PosixPath.join REPO_ROOT [REPOSITORIES_FOLDER])
                [package_name])
  then ["git"; "fetch"; "origin"]
  else ["git"; "clone"; url +:+ ".git"; package_name].

(** The extraction command of the Catalog Extractor on disk [d]. *)
Definition pybabel_command (REPO_ROOT : string) (d : Disk)
    (package_name : string) : list string :=
  (["pybabel"; "extract"]
     ++ all_dirs d (PosixPath.join REPO_ROOT [REPOSITORIES_FOLDER; package_name])
     ++ ["-o"; catalog_path REPO_ROOT package_name;
         "--no-default-keywords"; "-w"; "100000"]
     ++ ["-k"; "_:1"; "-k"; "_p:1c,2"; "-k"; "_n:1,2"; "-k"; "_np:1c,2,3"])%list.

(** The prefix the Catalog Extractor removes: the mirror directory and the
    separator after it. *)
Definition mirror_prefix (REPO_ROOT package_name : string) : string :=
  PosixPath.join REPO_ROOT [REPOSITORIES_FOLDER; package_name] +:+ "/".

(** [s.find(sub)]: where [sub] first starts in [s], if anywhere. *)
Fixpoint first_occurrence (sub s : string) : option nat :=
  if String.prefix sub s then Some 0
  else
    match s with
    | "" => None
    | String _ s' => S <$> first_occurrence sub s'
    end.

(** The destination a command line gives after [-o]. *)
Fixpoint output_option (args : list string) : option string :=
  match args with
  | [] => None
  | arg :: args' =>
      if bool_decide (arg = "-o") then head args' else output_option args'
  end.

(** An extraction tool that writes [text] to its destination; [git] does
    nothing. *)
Definition pybabel_giving (text : string) : list string → string → Disk → Disk :=
  λ args cwd d,
    match head args, output_option args with
    | Some "pybabel", Some output =>
        mkDisk (repository_map_yml d) (crowdin_yml d) (isdir d) (all_dirs d)
          (<[output := text]> (texts d))
    | _, _ => d
    end.

(** A catalog with a file reference under the mirror of [napari] and a
    message that names the mirror itself. *)
Definition example_catalog : string :=
  "#: /lp/repos/napari/napari/utils/a.py:12" +:+ PyStr.nl
    +:+ "msgid " +:+ PyStr.dquote +:+ "Open /lp/repos/napari" +:+ PyStr.dquote
    +:+ PyStr.nl.

(** Babel on [fr_FR], the one identifier looked at. *)
Definition babel_fr_FR : string → option PreGenProject.Locale :=
  λ identifier,
    if bool_decide (identifier = "fr_FR")
    then Some (PreGenProject.mkLocale "fr" (Some "FR"))
    else None.

(** The packages a trace announces, in the order of the notices. *)
Definition notices (t : list event) : list string :=
  omap (λ e, match e with EchoUpdating package_name => Some package_name
                     | _ => None end) t.

(** A machine whose configuration has no file-list section. *)
Definition listless_world : World :=
  mkWorld (fresh_disk example_map example_sections) [].

(** A directory path written without a slash at its end. *)
Definition plain_directory (path : string) : Prop :=
  path ≠ "" ∧ PyStr.endswith path "/" = false.

(** A name that is one component of a path: not empty, not absolute, no
    slash at its end. *)
Definition relative_name (name : string) : Prop :=
  name ≠ "" ∧ PyStr.startswith name "/" = false ∧ PyStr.endswith name "/" = false.

(** The paths a triple of [os.walk] adds to the folders: its directory
    names, each joined to its directory. *)
Definition joined (triple : string * list string * list string) : list string :=
  map (λ name, PosixPath.join triple.1.1 [name]) triple.1.2.

(** Every name in the tree is one path component. *)
Fixpoint well_named (n : DirTree.node) : Prop :=
  match n with
  | DirTree.File => True
  | DirTree.Dir entries =>
      (fix all_named (es : list (string * DirTree.node)) : Prop :=
         match es with
         | [] => True
         | entry :: es' =>
             relative_name entry.1 ∧ well_named entry.2 ∧ all_named es'
         end) entries
  end.

(** A mirror with a package directory that has a subdirectory, and a file
    at its top. *)
Definition example_tree : DirTree.node :=
  DirTree.Dir
    [ ("setup.py", DirTree.File);
      ("napari", DirTree.Dir
         [ ("utils", DirTree.Dir [("a.py", DirTree.File)]);
           ("__init__.py", DirTree.File) ]);
      ("docs", DirTree.Dir []) ].

(** Tools that work: [git clone] creates its target under the directory it
    runs in, [pybabel] writes [text] to its destination. *)
Definition working_tools (text : string) : list string → string → Disk → Disk :=
  λ args cwd d,
    match args with
    | "git" :: "clone" :: _ :: target :: _ =>
        mkDisk (repository_map_yml d) (crowdin_yml d)
          (λ path, bool_decide (path = PosixPath.join cwd [target]) || isdir d path)
          (all_dirs d) (texts d)
    | _ => pybabel_giving text args cwd d
    end.

(** The errors a round of the main loop for [package_name] can end with:
    the catalog is not there after the extraction, or a directory in which a
    command is to run is not there. *)
Definition round_error (REPO_ROOT package_name : string) (e : exn) : Prop :=
  e = FileNotFoundError (catalog_path REPO_ROOT package_name)
  ∨ ∃ cwd : string,
      cwd ∈ [ PosixPath.join REPO_ROOT [REPOSITORIES_FOLDER];
              PosixPath.join (PosixPath.join REPO_ROOT [REPOSITORIES_FOLDER])
                [package_name];
              REPO_ROOT ]
      ∧ (e = FileNotFoundError cwd ∨ e = NotADirectoryError cwd).

(** ** The file list the Synchronizer builds *)
Section FileList.

Context {A : Type}.
Implicit Types (data : gmap string A) (names : list string).

Lemma append_loop names (packages : list yaml) :
  fold_left
    (fun (packages : list yaml) pkg_name =>
       if bool_decide (pkg_name ≠ "napari")
       then (packages ++ [plugin_entry pkg_name])%list
       else packages)
    names packages
  = (packages ++ (plugin_entry <$> filter (λ k, k ≠ "napari") names))%list.
Proof.
  revert packages.
  induction names as [|k names IH]; intros packages; simpl.
  - by rewrite app_nil_r.
  - rewrite IH. case_bool_decide as Hk.
    + rewrite filter_cons_True by done.
      by rewrite fmap_cons, <- app_assoc.
    + rewrite filter_cons_False; [done|]. simpl. tauto.
Qed.

Lemma crowdin_files_unfold data :
  crowdin_files data = root_entry :: (plugin_entry <$> plugin_names data).
Proof. unfold crowdin_files. by rewrite append_loop. Qed.

Lemma sorted_Permutation data : sorted data ≡ₚ (map_to_list data).*1.
Proof. apply merge_sort_Permutation. Qed.

Lemma elem_of_sorted data k : k ∈ sorted data ↔ is_Some (data !! k).
Proof.
  rewrite sorted_Permutation, list_elem_of_fmap. split.
  - intros [[k' x] [-> Hx]]. apply elem_of_map_to_list in Hx. by exists x.
  - intros [x Hx]. exists (k, x). split; [done|]. by apply elem_of_map_to_list.
Qed.

Lemma NoDup_sorted data : NoDup (sorted data).
Proof. rewrite sorted_Permutation. apply NoDup_fst_map_to_list. Qed.

Lemma StronglySorted_sorted data : StronglySorted String.le (sorted data).
Proof. apply (StronglySorted_merge_sort String.le). Qed.

Lemma StronglySorted_filter_keep (P : string → Prop) `{∀ k, Decision (P k)} names :
  StronglySorted String.le names → StronglySorted String.le (filter P names).
Proof.
  induction 1 as [|k names Hs IH Hk]; [constructor|].
  destruct (decide (P k)).
  - rewrite filter_cons_True by done. constructor; [done|].
    apply Forall_forall. intros k' [_ Hk']%list_elem_of_filter.
    by eapply Forall_forall in Hk.
  - by rewrite filter_cons_False by done.
Qed.

Lemma filter_keep_all (P : string → Prop) `{∀ k, Decision (P k)} names :
  Forall P names → filter P names = names.
Proof.
  induction 1 as [|k names Hk _ IH]; [done|].
  rewrite filter_cons_True by done. by rewrite IH.
Qed.

Lemma plugin_names_keys data :
  plugin_names data ≡ₚ (map_to_list (delete "napari" data)).*1.
Proof.
  unfold plugin_names. rewrite sorted_Permutation.
  assert (Hrest : ∀ m : gmap string A,
    m !! "napari" = None →
    filter (λ k, k ≠ "napari") (map_to_list m).*1 = (map_to_list m).*1).
  { intros m Hm. apply filter_keep_all. apply Forall_forall.
    intros k [[k' x] [-> Hx%elem_of_map_to_list]]%list_elem_of_fmap.
    simpl. intros ->. congruence. }
  destruct (data !! "napari") as [x|] eqn:Hroot.
  - rewrite <- (map_to_list_delete data "napari" x Hroot). simpl.
    rewrite filter_cons_False by (intros Hne; by apply Hne).
    rewrite Hrest; [done|]. apply lookup_delete_eq.
  - rewrite delete_id by done. by rewrite Hrest.
Qed.

Lemma length_plugin_names data :
  length (plugin_names data) = size (delete "napari" data).
Proof.
  by rewrite plugin_names_keys, length_fmap, length_map_to_list.
Qed.

Lemma length_crowdin_files data :
  length (crowdin_files data)
  = if bool_decide (is_Some (data !! "napari")) then size data else S (size data).
Proof.
  rewrite crowdin_files_unfold. simpl.
  rewrite length_fmap, length_plugin_names, map_size_delete.
  case_bool_decide as Hroot.
  - destruct Hroot as [x Hx]. rewrite Hx.
    assert (size data ≠ 0); [|simpl; lia].
    intros Hz%map_size_empty_iff. by rewrite Hz, lookup_empty in Hx.
  - destruct (data !! "napari") eqn:Hx; [|done].
    exfalso. apply Hroot. by eexists.
Qed.

End FileList.

(** ** The Synchronizer on the configuration file *)
Section Synchronizer.

Variable REPO_ROOT : string.
Implicit Types (w : World) (k : string).

(** The configuration the Synchronizer writes, from what it read. *)
Lemma update_crowdin_config_writes w files :
  crowdin_yml (disk w) !! "files" = Some files →
  update_crowdin_config REPO_ROOT w
  = (Returned (),
     let crowdin_data :=
       <["files" := YSeq (crowdin_files (repository_map_yml (disk w)))]>
         (crowdin_yml (disk w)) in
     mkWorld
       (mkDisk (repository_map_yml (disk w)) crowdin_data (isdir (disk w))
          (all_dirs (disk w)) (texts (disk w)))
       (trace w ++ [WriteYaml (PosixPath.join REPO_ROOT [CROWDIN_FILE]) crowdin_data])).
Proof.
  intros Hfiles. unfold update_crowdin_config, load_repo_map, load_crowdin.
  unfold mbind, script_bind, read, getitem. simpl. by rewrite Hfiles.
Qed.

(** Without a file-list section the lookup raises and nothing is written. *)
Lemma update_crowdin_config_raises w :
  crowdin_yml (disk w) !! "files" = None →
  update_crowdin_config REPO_ROOT w = (Raised (KeyError "files"), w).
Proof.
  intros Hfiles. unfold update_crowdin_config, load_repo_map, load_crowdin.
  unfold mbind, script_bind, read, getitem. simpl. by rewrite Hfiles.
Qed.

Lemma update_crowdin_config_repository_map w :
  repository_map_yml (disk (world_after (update_crowdin_config REPO_ROOT) w))
  = repository_map_yml (disk w).
Proof.
  unfold world_after.
  destruct (crowdin_yml (disk w) !! "files") as [files|] eqn:Hfiles.
  - by rewrite (update_crowdin_config_writes w files).
  - by rewrite update_crowdin_config_raises.
Qed.

End Synchronizer.

(** ** What the specification says of the Synchronizer *)
Section SynchronizerClaims.

Variable REPO_ROOT : string.
Implicit Types (w : World) (k : string).

Lemma synced_eq w files :
  crowdin_yml (disk w) !! "files" = Some files →
  synced REPO_ROOT w
  = <["files" := YSeq (crowdin_files (repository_map_yml (disk w)))]>
      (crowdin_yml (disk w)).
Proof.
  intros Hfiles. unfold synced, world_after.
  by rewrite (update_crowdin_config_writes REPO_ROOT w files).
Qed.

(** C1, as amended: when the configuration has a file-list section, the
    list the Synchronizer writes is the root entry followed by one entry per
    package other than [napari], in strictly increasing order of name; its
    length is the number of packages when [napari] is one of them, and one
    more when it is not. *)
Theorem file_list_root_then_sorted w :
  is_Some (file_list (crowdin_yml (disk w))) →
  ∃ names : list string,
    file_list (synced REPO_ROOT w)
    = Some (YSeq (root_entry :: (plugin_entry <$> names)))
    ∧ StronglySorted String.le names
    ∧ NoDup names
    ∧ (∀ k, k ∈ names ↔ is_Some (repository_map_yml (disk w) !! k) ∧ k ≠ "napari")
    ∧ length (root_entry :: (plugin_entry <$> names))
      = if bool_decide (is_Some (repository_map_yml (disk w) !! "napari"))
        then size (repository_map_yml (disk w))
        else S (size (repository_map_yml (disk w))).
Proof.
  intros [files Hfiles]. unfold file_list in *.
  exists (plugin_names (repository_map_yml (disk w))).
  rewrite (synced_eq w files Hfiles), lookup_insert_eq.
  rewrite <- crowdin_files_unfold.
  split; [done|]. split; [|split; [|split]].
  - apply StronglySorted_filter_keep, StronglySorted_sorted.
  - apply NoDup_filter, NoDup_sorted.
  - intros k. unfold plugin_names.
    rewrite list_elem_of_filter, elem_of_sorted. tauto.
  - apply length_crowdin_files.
Qed.

(** C7: a second run of the Synchronizer, on what the first run left,
    returns and writes the same configuration again, so the same file-list
    section. *)
Theorem sync_twice_same_file_list w :
  is_Some (file_list (crowdin_yml (disk w))) →
  outcome_of (update_crowdin_config REPO_ROOT)
    (world_after (update_crowdin_config REPO_ROOT) w) = Returned ()
  ∧ file_list (synced REPO_ROOT (world_after (update_crowdin_config REPO_ROOT) w))
    = file_list (synced REPO_ROOT w)
  ∧ synced REPO_ROOT (world_after (update_crowdin_config REPO_ROOT) w)
    = synced REPO_ROOT w.
Proof.
  intros [files Hfiles]. unfold file_list in *.
  set (w1 := world_after (update_crowdin_config REPO_ROOT) w).
  assert (Hw1 : crowdin_yml (disk w1) = synced REPO_ROOT w) by done.
  assert (Hfiles1 : crowdin_yml (disk w1) !! "files"
                    = Some (YSeq (crowdin_files (repository_map_yml (disk w))))).
  { rewrite Hw1, (synced_eq w files Hfiles). apply lookup_insert_eq. }
  assert (Hsame : synced REPO_ROOT w1 = synced REPO_ROOT w).
  { rewrite (synced_eq w1 _ Hfiles1), Hw1.
    unfold w1. rewrite update_crowdin_config_repository_map.
    rewrite (synced_eq w files Hfiles). apply insert_insert_eq. }
  split; [|by rewrite Hsame].
  unfold outcome_of. by rewrite (update_crowdin_config_writes _ w1 _ Hfiles1).
Qed.

(** C8: every section other than the file list has, after a run of the
    Synchronizer, the value it had before. *)
Theorem sync_keeps_other_sections w k :
  k ≠ "files" →
  synced REPO_ROOT w !! k = crowdin_yml (disk w) !! k.
Proof.
  intros Hk.
  destruct (crowdin_yml (disk w) !! "files") as [files|] eqn:Hfiles.
  - rewrite (synced_eq w files Hfiles). by rewrite lookup_insert_ne.
  - unfold synced, world_after. by rewrite update_crowdin_config_raises.
Qed.

(** C10: two configurations that both have a file list and agree on every
    other section are rewritten, for the same repository map, to the same
    configuration. *)
Theorem sync_forgets_old_file_list w1 w2 :
  repository_map_yml (disk w1) = repository_map_yml (disk w2) →
  is_Some (file_list (crowdin_yml (disk w1))) →
  is_Some (file_list (crowdin_yml (disk w2))) →
  (∀ k, k ≠ "files" → crowdin_yml (disk w1) !! k = crowdin_yml (disk w2) !! k) →
  synced REPO_ROOT w1 = synced REPO_ROOT w2.
Proof.
  intros Hmap [files1 Hfiles1] [files2 Hfiles2] Hrest. unfold file_list in *.
  rewrite (synced_eq w1 files1 Hfiles1), (synced_eq w2 files2 Hfiles2), Hmap.
  apply map_eq. intros k. destruct (decide (k = "files")) as [->|Hk].
  - by rewrite !lookup_insert_eq.
  - rewrite !lookup_insert_ne by done. by apply Hrest.
Qed.

End SynchronizerClaims.

Lemma file_list_root_then_sorted_witness :
  is_Some (file_list (crowdin_yml (disk example_world)))
  ∧ ∃ names : list string,
      file_list (synced "/lp" example_world)
      = Some (YSeq (root_entry :: (plugin_entry <$> names)))
      ∧ StronglySorted String.le names
      ∧ NoDup names
      ∧ (∀ k, k ∈ names
              ↔ is_Some (repository_map_yml (disk example_world) !! k) ∧ k ≠ "napari")
      ∧ length (root_entry :: (plugin_entry <$> names))
        = if bool_decide (is_Some (repository_map_yml (disk example_world) !! "napari"))
          then size (repository_map_yml (disk example_world))
          else S (size (repository_map_yml (disk example_world))).
Proof.
  assert (H : is_Some (file_list (crowdin_yml (disk example_world)))).
  { exists (YSeq []). reflexivity. }
  split; [exact H|]. exact (file_list_root_then_sorted "/lp" example_world H).
Defined.

(** C1, as stated, fails: for a repository map without [napari] the list
    still starts with the root entry, and is longer than the map. *)
Lemma file_list_longer_than_map :
  ∃ files : list yaml,
    file_list (synced "/lp" plugins_only_world) = Some (YSeq files)
    ∧ size (repository_map_yml (disk plugins_only_world)) = 1
    ∧ length files = 2
    ∧ length files ≠ size (repository_map_yml (disk plugins_only_world)).
Proof.
  exists [root_entry; plugin_entry "plugin-a"].
  repeat split; try (vm_compute; reflexivity). vm_compute. discriminate.
Qed.

Lemma sync_twice_same_file_list_witness :
  is_Some (file_list (crowdin_yml (disk stale_world)))
  ∧ outcome_of (update_crowdin_config "/lp")
      (world_after (update_crowdin_config "/lp") stale_world) = Returned ()
  ∧ file_list (synced "/lp" (world_after (update_crowdin_config "/lp") stale_world))
    = file_list (synced "/lp" stale_world)
  ∧ synced "/lp" (world_after (update_crowdin_config "/lp") stale_world)
    = synced "/lp" stale_world.
Proof.
  assert (H : is_Some (file_list (crowdin_yml (disk stale_world)))).
  { exists (YSeq [YStr "stale"]). reflexivity. }
  split; [exact H|]. exact (sync_twice_same_file_list "/lp" stale_world H).
Defined.

Lemma sync_keeps_other_sections_witness :
  "project_id_env" ≠ "files"
  ∧ synced "/lp" stale_world !! "project_id_env"
    = crowdin_yml (disk stale_world) !! "project_id_env".
Proof.
  assert (H : "project_id_env" ≠ "files") by discriminate.
  split; [exact H|].
  exact (sync_keeps_other_sections "/lp" stale_world "project_id_env" H).
Defined.

Lemma sync_forgets_old_file_list_witness :
  synced "/lp" example_world = synced "/lp" stale_world.
Proof.
  apply (sync_forgets_old_file_list "/lp" example_world stale_world).
  - reflexivity.
  - exists (YSeq []). reflexivity.
  - exists (YSeq [YStr "stale"]). reflexivity.
  - intros k Hk. simpl. unfold example_crowdin, stale_crowdin.
    by rewrite !lookup_insert_ne.
Defined.

(** ** The Mirror Updater, the Catalog Extractor and the main block *)
Section Runs.

Variable REPO_ROOT : string.
Variable run_command : list string → string → Disk → Disk.
Implicit Types (w : World) (d : Disk).



Lemma commands_app t1 t2 : commands (t1 ++ t2) = (commands t1 ++ commands t2)%list.
Proof. apply omap_app. Qed.

Lemma chdir_error_cases d cwd :
  chdir_error d cwd = FileNotFoundError cwd
  ∨ chdir_error d cwd = NotADirectoryError cwd.
Proof. unfold chdir_error. case_bool_decide; auto. Qed.

Lemma subprocess_run w args cwd :
  subprocess run_command args cwd w
  = if isdir (disk w) cwd
    then (Returned (),
          mkWorld (run_command args cwd (disk w)) (trace w ++ [Popen args cwd]))
    else (Raised (chdir_error (disk w) cwd), w).
Proof.
  unfold subprocess, emit, modify, read, raise, mbind, script_bind. simpl.
  by destruct (isdir (disk w) cwd).
Qed.

Lemma update_repo_run w package_name url version :
  update_repo REPO_ROOT run_command package_name url version w
  = let repos_path := PosixPath.join REPO_ROOT [REPOSITORIES_FOLDER] in
    let clone_path := PosixPath.join repos_path [package_name] in
    let first := first_git_command REPO_ROOT (disk w) package_name url in
    if isdir (disk w) repos_path
    then
      let d := run_command first repos_path (disk w) in
      if isdir d clone_path
      then
        (Returned (),
         mkWorld (run_command ["git"; "checkout"; version] clone_path d)
           (trace w ++ [Popen first repos_path;
                        Popen ["git"; "checkout"; version] clone_path]))
      else
        (Raised (chdir_error d clone_path),
         mkWorld d (trace w ++ [Popen first repos_path]))
    else (Raised (chdir_error (disk w) repos_path), w).
Proof.
  unfold update_repo, first_git_command.
  set (repos_path := PosixPath.join REPO_ROOT [REPOSITORIES_FOLDER]).
  set (clone_path := PosixPath.join repos_path [package_name]).
  unfold read at 1. unfold mbind at 1 2. unfold script_bind at 1 2.
  cbn [disk]. cbv zeta.
  assert (Hthen : ∀ first,
    (subprocess run_command first repos_path ;;
     subprocess run_command ["git"; "checkout"; version] clone_path) w
    = if isdir (disk w) repos_path
      then
        if isdir (run_command first repos_path (disk w)) clone_path
        then
          (Returned (),
           mkWorld
             (run_command ["git"; "checkout"; version] clone_path
                (run_command first repos_path (disk w)))
             (trace w ++ [Popen first repos_path;
                          Popen ["git"; "checkout"; version] clone_path]))
        else
          (Raised (chdir_error (run_command first repos_path (disk w)) clone_path),
           mkWorld (run_command first repos_path (disk w))
             (trace w ++ [Popen first repos_path]))
      else (Raised (chdir_error (disk w) repos_path), w)).
  { intros first. unfold mbind, script_bind. rewrite subprocess_run.
    destruct (isdir (disk w) repos_path); [|done].
    rewrite subprocess_run. cbn [disk trace].
    destruct (isdir _ clone_path); [|done]. by rewrite <- app_assoc. }
  destruct (isdir (disk w) clone_path); cbn [negb]; apply Hthen.
Qed.

Lemma update_catalog_run w package_name version :
  update_catalog REPO_ROOT run_command package_name version w
  = let output := catalog_path REPO_ROOT package_name in
    let args := pybabel_command REPO_ROOT (disk w) package_name in
    if isdir (disk w) REPO_ROOT
    then
      let d := run_command args REPO_ROOT (disk w) in
      match texts d !! output with
      | Some data =>
          let data :=
            PyStr.replace data (mirror_prefix REPO_ROOT package_name) "" in
          (Returned (),
           mkWorld
             (mkDisk (repository_map_yml d) (crowdin_yml d) (isdir d) (all_dirs d)
                (<[output := data]> (texts d)))
             (trace w ++ [Popen args REPO_ROOT; WriteText output data]))
      | None =>
          (Raised (FileNotFoundError output),
           mkWorld d (trace w ++ [Popen args REPO_ROOT]))
      end
    else (Raised (chdir_error (disk w) REPO_ROOT), w).
Proof.
  unfold update_catalog, _get_all_dirs.
  unfold read at 1. unfold mbind at 1 2. unfold script_bind at 1 2. simpl.
  fold (pybabel_command REPO_ROOT (disk w) package_name).
  rewrite subprocess_run. destruct (isdir (disk w) REPO_ROOT); [|done].
  unfold read_text, write_text, emit, modify, read, raise.
  unfold mbind, mret, script_bind, script_ret. simpl.
  destruct (texts _ !! _); simpl; [|done]. by rewrite <- app_assoc.
Qed.

(** The commands of one round of the loop of the main block: each one
    starts when the directory it is to run in is there, and the round stops
    at the first that does not. *)
Lemma update_package_commands w data package_name entry :
  data !! package_name = Some entry →
  commands (trace (world_after
    (update_package REPO_ROOT run_command data package_name) w))
  = let repos_path := PosixPath.join REPO_ROOT [REPOSITORIES_FOLDER] in
    let clone_path := PosixPath.join repos_path [package_name] in
    let first := first_git_command REPO_ROOT (disk w) package_name (url entry) in
    (commands (trace w)
       ++ if isdir (disk w) repos_path
          then
            (first, repos_path)
            :: (if isdir (run_command first repos_path (disk w)) clone_path
                then
                  (["git"; "checkout"; current_version_tag entry], clone_path)
                  :: (if isdir
                           (run_command
                              ["git"; "checkout"; current_version_tag entry]
                              clone_path
                              (run_command first repos_path (disk w)))
                           REPO_ROOT
                      then
                        [(pybabel_command REPO_ROOT
                            (run_command
                               ["git"; "checkout"; current_version_tag entry]
                               clone_path
                               (run_command first repos_path (disk w)))
                            package_name,
                          REPO_ROOT)]
                      else [])
                else [])
          else [])%list.
Proof.
  intros Hentry. unfold world_after, update_package, getitem.
  rewrite Hentry. unfold emit at 1. unfold mbind, mret, script_bind, script_ret.
  simpl. rewrite update_repo_run. simpl.
  destruct (isdir (disk w) _); simpl;
    [|rewrite commands_app; simpl; by rewrite !app_nil_r].
  destruct (isdir (run_command _ _ _) _); simpl;
    [|rewrite !commands_app; simpl; by rewrite ?app_nil_r, <- ?app_assoc].
  rewrite update_catalog_run. simpl.
  destruct (isdir (run_command _ _ _) REPO_ROOT); simpl;
    [|rewrite !commands_app; simpl; by rewrite ?app_nil_r, <- ?app_assoc].
  destruct (texts _ !! _); simpl;
    rewrite !commands_app; simpl; by rewrite ?app_nil_r, <- ?app_assoc.
Qed.

End Runs.

(** ** What the specification says of the Orchestrator *)
Section Orchestrator.

Variable REPO_ROOT : string.
Variable run_command : list string → string → Disk → Disk.
Implicit Types (w : World) (args : list string).

(** The main block starts with the Synchronizer, whatever the arguments. *)
Lemma main_unfold w args :
  main REPO_ROOT run_command args w
  = (update_crowdin_config REPO_ROOT ;;
     packages ←
       (if bool_decide (length args = 1)
        then
          if bool_decide
               (is_Some (repository_map_yml (disk w) !! default "" (args !! 0)))
          then mret [default "" (args !! 0)]
          else mret []
        else if bool_decide (length args = 0)
        then mret (sorted (repository_map_yml (disk w)))
        else raise (SystemExit 0)) ;
     for_each packages
       (update_package REPO_ROOT run_command (repository_map_yml (disk w))) ;;
     emit EchoUpdated) w.
Proof. reflexivity. Qed.

(** C3, as amended: with two or more arguments, and a configuration that
    has a file-list section, the run ends with status 0 after the
    Synchronizer has rewritten the configuration file; that is the only
    change on disk and the only thing done: no command is run and no
    catalog is written. *)
Theorem several_arguments_sync_then_exit w args :
  (2 ≤ length args)%nat →
  is_Some (file_list (crowdin_yml (disk w))) →
  exit_status (outcome_of (main REPO_ROOT run_command args) w) = 0%Z
  ∧ world_after (main REPO_ROOT run_command args) w
    = mkWorld
        (mkDisk (repository_map_yml (disk w)) (synced REPO_ROOT w)
           (isdir (disk w)) (all_dirs (disk w)) (texts (disk w)))
        (trace w ++ [WriteYaml (PosixPath.join REPO_ROOT [CROWDIN_FILE])
                       (synced REPO_ROOT w)]).
Proof.
  intros Hargs [files Hfiles]. unfold file_list in Hfiles.
  unfold outcome_of, world_after at 1. rewrite main_unfold.
  rewrite !bool_decide_eq_false_2 by lia.
  unfold synced, world_after. unfold mbind, script_bind, raise.
  by rewrite (update_crowdin_config_writes REPO_ROOT w files Hfiles).
Qed.


End Orchestrator.

Lemma several_arguments_sync_then_exit_witness :
  (2 ≤ length ["napari"; "plugin-a"])%nat
  ∧ is_Some (file_list (crowdin_yml (disk example_world)))
  ∧ exit_status
      (outcome_of (main "/lp" idle_tools ["napari"; "plugin-a"]) example_world) = 0%Z
  ∧ world_after (main "/lp" idle_tools ["napari"; "plugin-a"]) example_world
    = mkWorld
        (mkDisk (repository_map_yml (disk example_world)) (synced "/lp" example_world)
           (isdir (disk example_world)) (all_dirs (disk example_world))
           (texts (disk example_world)))
        (trace example_world
           ++ [WriteYaml (PosixPath.join "/lp" [CROWDIN_FILE])
                 (synced "/lp" example_world)]).
Proof.
  assert (Hargs : (2 ≤ length ["napari"; "plugin-a"])%nat) by (simpl; lia).
  assert (Hfiles : is_Some (file_list (crowdin_yml (disk example_world)))).
  { exists (YSeq []). reflexivity. }
  split; [exact Hargs|]. split; [exact Hfiles|].
  exact (several_arguments_sync_then_exit "/lp" idle_tools example_world
           ["napari"; "plugin-a"] Hargs Hfiles).
Defined.

(** C3, as stated, fails: with two arguments the run ends with status 0, but
    the Synchronizer has run before the arguments are counted: the
    configuration file has been written, here with a new file list. *)
Lemma two_arguments_rewrite_configuration :
  exit_status
    (outcome_of (main "/lp" idle_tools ["napari"; "plugin-a"]) example_world) = 0%Z
  ∧ file_list (crowdin_yml (disk example_world)) = Some (YSeq [])
  ∧ file_list (crowdin_yml (disk
      (world_after (main "/lp" idle_tools ["napari"; "plugin-a"]) example_world)))
    = Some (YSeq [root_entry; plugin_entry "plugin-a"])
  ∧ trace (world_after (main "/lp" idle_tools ["napari"; "plugin-a"]) example_world)
    = [WriteYaml "/lp/crowdin.yml" (synced "/lp" example_world)]
  ∧ disk (world_after (main "/lp" idle_tools ["napari"; "plugin-a"]) example_world)
    ≠ disk example_world.
Proof.
  repeat split; try (vm_compute; reflexivity).
  intros Hdisk. apply (f_equal (λ d, crowdin_yml d !! "files")) in Hdisk.
  vm_compute in Hdisk. discriminate Hdisk.
Qed.

(** The commands of a run for a known package, with tools that work and
    with a clone that leaves no mirror, and the trace for an unknown package. *)
Example one_argument_commands :
  commands (trace (world_after
    (main "/lp" (working_tools example_catalog) ["plugin-a"]) example_world))
  = [ (["git"; "clone"; "https://example.com/plugin-a.git"; "plugin-a"],
       "/lp/repos");
      (["git"; "checkout"; "main"], "/lp/repos/plugin-a");
      (["pybabel"; "extract"; "-o"; "/lp/plugins/plugin-a/locale/plugin-a.pot";
        "--no-default-keywords"; "-w"; "100000";
        "-k"; "_:1"; "-k"; "_p:1c,2"; "-k"; "_n:1,2"; "-k"; "_np:1c,2,3"],
       "/lp") ]
  ∧ commands (trace (world_after (main "/lp" idle_tools ["plugin-a"]) example_world))
    = [ (["git"; "clone"; "https://example.com/plugin-a.git"; "plugin-a"],
         "/lp/repos") ]
  ∧ outcome_of (main "/lp" idle_tools ["plugin-a"]) example_world
    = Raised (FileNotFoundError "/lp/repos/plugin-a")
  ∧ trace (world_after (main "/lp" idle_tools ["plugin-b"]) example_world)
    = [WriteYaml "/lp/crowdin.yml" (synced "/lp" example_world); EchoUpdated].
Proof. repeat split; vm_compute; reflexivity. Qed.

(** ** The Mirror Updater on a package that is already mirrored *)

(** C2: when the mirror directory exists, the one command the Mirror Updater
    runs before the checkout is [git fetch origin] in the folder of all
    mirrors, not in the mirror of the package; the [git checkout] of the
    version then runs in the mirror. Each of the two starts when the directory
    it is to run in is there, and nothing more is run when it is not. *)
Theorem update_repo_fetches_in_repos_folder
    (REPO_ROOT : string) (run_command : list string → string → Disk → Disk)
    (w : World) (package_name url version : string) :
  isdir (disk w)
    (PosixPath.join (PosixPath.join REPO_ROOT [REPOSITORIES_FOLDER]) [package_name])
  = true →
  trace (world_after (update_repo REPO_ROOT run_command package_name url version) w)
  = (trace w
       ++ if isdir (disk w) (PosixPath.join REPO_ROOT [REPOSITORIES_FOLDER])
          then
            Popen ["git"; "fetch"; "origin"]
              (PosixPath.join REPO_ROOT [REPOSITORIES_FOLDER])
            :: (if isdir
                     (run_command ["git"; "fetch"; "origin"]
                        (PosixPath.join REPO_ROOT [REPOSITORIES_FOLDER]) (disk w))
                     (PosixPath.join
                        (PosixPath.join REPO_ROOT [REPOSITORIES_FOLDER])
                        [package_name])
                then
                  [Popen ["git"; "checkout"; version]
                     (PosixPath.join
                        (PosixPath.join REPO_ROOT [REPOSITORIES_FOLDER])
                        [package_name])]
                else [])
          else [])%list.
Proof.
  intros Hdir. unfold world_after. rewrite update_repo_run. cbv zeta.
  unfold first_git_command. rewrite Hdir.
  destruct (isdir (disk w) (PosixPath.join REPO_ROOT [REPOSITORIES_FOLDER]));
    [|by rewrite app_nil_r].
  by destruct (isdir (run_command _ _ _) _).
Qed.

Lemma update_repo_fetches_in_repos_folder_witness :
  isdir (disk mirrored_world) "/lp/repos/napari" = true
  ∧ trace (world_after
      (update_repo "/lp" idle_tools "napari" "https://github.com/napari/napari" "v0.4.5")
      mirrored_world)
    = [Popen ["git"; "fetch"; "origin"] "/lp/repos";
       Popen ["git"; "checkout"; "v0.4.5"] "/lp/repos/napari"]
  ∧ "/lp/repos" ≠ "/lp/repos/napari".
Proof.
  assert (Hdir : isdir (disk mirrored_world)
            (PosixPath.join (PosixPath.join "/lp" [REPOSITORIES_FOLDER]) ["napari"])
          = true) by reflexivity.
  split; [exact Hdir|]. split; [|discriminate].
  rewrite (update_repo_fetches_in_repos_folder "/lp" idle_tools mirrored_world
             "napari" "https://github.com/napari/napari" "v0.4.5" Hdir).
  reflexivity.
Defined.

(** ** [str.replace] and [in] *)
Section Strings.

Implicit Types (s old new pre post : string).

Lemma prefix_app old s : String.prefix old (old +:+ s) = true.
Proof.
  induction old as [|c old IH]; simpl; [by destruct s|].
  by destruct (Ascii.ascii_dec c c).
Qed.

(** The characters of an occurrence are passed over. *)
Lemma replace_scan_skip old new pre s :
  PyStr.replace_scan old new (String.length pre) (pre +:+ s)
  = PyStr.replace_scan old new 0 s.
Proof. induction pre as [|c pre IH]; simpl; [by destruct s|done]. Qed.

Lemma replace_scan_occurrence old new s :
  old ≠ "" →
  PyStr.replace_scan old new 0 (old +:+ s) = new +:+ PyStr.replace_scan old new 0 s.
Proof.
  intros Hold. destruct old as [|c old]; [done|].
  change (String c old +:+ s) with (String c (old +:+ s)).
  cbn [PyStr.replace_scan].
  change (String c (old +:+ s)) with (String c old +:+ s).
  rewrite prefix_app. simpl String.length.
  replace (S (String.length old) - 1) with (String.length old) by lia.
  by rewrite replace_scan_skip.
Qed.

Lemma replace_nonempty s old new :
  old ≠ "" → PyStr.replace s old new = PyStr.replace_scan old new 0 s.
Proof. by destruct old. Qed.

(** Without an occurrence of [old] the string is returned as it is. *)
Lemma replace_no_occurrence s old new :
  old ≠ "" → first_occurrence old s = None → PyStr.replace s old new = s.
Proof.
  intros Hold. rewrite replace_nonempty by done.
  induction s as [|c s IH]; [done|].
  cbn [first_occurrence PyStr.replace_scan].
  destruct (String.prefix old (String c s)); [done|].
  destruct (first_occurrence old s); [done|]. intros _. by rewrite IH.
Qed.

(** What precedes the first occurrence is kept, the occurrence is
    replaced, and the scan goes on after it. *)
Lemma replace_first_occurrence pre post old new :
  old ≠ "" →
  first_occurrence old (pre +:+ old +:+ post) = Some (String.length pre) →
  PyStr.replace (pre +:+ old +:+ post) old new
  = pre +:+ new +:+ PyStr.replace post old new.
Proof.
  intros Hold. rewrite !replace_nonempty by done.
  induction pre as [|c pre IH]; intros Hfirst.
  - exact (replace_scan_occurrence old new post Hold).
  - change (String c pre +:+ old +:+ post) with (String c (pre +:+ old +:+ post))
      in *.
    cbn [first_occurrence PyStr.replace_scan String.length] in *.
    destruct (String.prefix old (String c (pre +:+ old +:+ post))); [done|].
    destruct (first_occurrence old (pre +:+ old +:+ post)) as [i|]; [|done].
    simpl in Hfirst. rewrite IH by congruence. done.
Qed.

(** [name.replace("-", "_")] has no hyphen left. *)
Lemma normalized_has_no_hyphen s :
  PyStr.contains "-" (PyStr.replace s "-" "_") = false.
Proof.
  rewrite replace_nonempty by done.
  induction s as [|c s IH]; [done|].
  cbn [PyStr.replace_scan String.prefix].
  destruct (Ascii.ascii_dec _ c) as [<-|Hc].
  - assert (String.prefix "" s = true) as -> by (by destruct s).
    cbv [String.append]. cbn [PyStr.contains String.prefix]. simpl. exact IH.
  - cbn [PyStr.contains String.prefix].
    destruct (Ascii.ascii_dec _ c); [done|]. simpl. exact IH.
Qed.

End Strings.

(** ** Paths derived from a package name *)

(** C4: the entries of the file list are built from the name with every
    hyphen replaced by an underscore, whatever the name; the path of the
    catalog is built from the name as it is, so for [plugin-a] the catalog is
    written under [plugins/plugin-a] while the file list names
    [plugins/plugin_a]. *)
Theorem catalog_path_keeps_hyphens :
  (∀ pkg_name : string,
     plugin_entry pkg_name
     = file_entry
         ("/plugins/" +:+ PyStr.replace pkg_name "-" "_" +:+ "/locale/"
            +:+ PyStr.replace pkg_name "-" "_" +:+ ".pot")
         ("/plugins/" +:+ PyStr.replace pkg_name "-" "_" +:+ "/locale"
            +:+ "/%locale_with_underscore%/LC_MESSAGES/%file_name%.po")
     ∧ PyStr.contains "-" (PyStr.replace pkg_name "-" "_") = false)
  ∧ PyStr.replace "plugin-a" "-" "_" = "plugin_a"
  ∧ plugin_entry "plugin-a"
    = file_entry "/plugins/plugin_a/locale/plugin_a.pot"
        "/plugins/plugin_a/locale/%locale_with_underscore%/LC_MESSAGES/%file_name%.po"
  ∧ catalog_path "/lp" "plugin-a" = "/lp/plugins/plugin-a/locale/plugin-a.pot"
  ∧ catalog_path "/lp" "plugin-a" ≠ "/lp/plugins/plugin_a/locale/plugin_a.pot".
Proof.
  split; [|by repeat split].
  intros pkg_name. split; [done|]. apply normalized_has_no_hyphen.
Qed.

(** ** The catalog after the Catalog Extractor *)
Section CatalogExtractor.

Variable REPO_ROOT : string.
Variable run_command : list string → string → Disk → Disk.

Lemma mirror_prefix_nonempty package_name :
  mirror_prefix REPO_ROOT package_name ≠ "".
Proof. unfold mirror_prefix. by destruct (PosixPath.join _ _). Qed.

(** C6, as amended: when the extraction tool has left a text at the
    destination, the Catalog Extractor writes back that text with the
    occurrences of the mirror directory followed by a slash removed in one
    scan from the left: a text without such an occurrence is written as it
    is, and otherwise what precedes the first occurrence is kept, the
    occurrence is dropped, and the rest is treated the same way. (The tool
    runs in the repository root; were that directory not there, the call
    would raise and leave everything as it was.) *)
Theorem update_catalog_strips_mirror_prefix
    (w : World) (package_name version text : string) :
  texts (run_command (pybabel_command REPO_ROOT (disk w) package_name)
           REPO_ROOT (disk w))
    !! catalog_path REPO_ROOT package_name = Some text →
  (if isdir (disk w) REPO_ROOT
   then
     outcome_of (update_catalog REPO_ROOT run_command package_name version) w
     = Returned ()
     ∧ texts (disk (world_after
         (update_catalog REPO_ROOT run_command package_name version) w))
         !! catalog_path REPO_ROOT package_name
       = Some (PyStr.replace text (mirror_prefix REPO_ROOT package_name) "")
   else
     update_catalog REPO_ROOT run_command package_name version w
     = (Raised (chdir_error (disk w) REPO_ROOT), w))
  ∧ (first_occurrence (mirror_prefix REPO_ROOT package_name) text = None →
     PyStr.replace text (mirror_prefix REPO_ROOT package_name) "" = text)
  ∧ (∀ pre post : string,
       text = pre +:+ mirror_prefix REPO_ROOT package_name +:+ post →
       first_occurrence (mirror_prefix REPO_ROOT package_name) text
       = Some (String.length pre) →
       PyStr.replace text (mirror_prefix REPO_ROOT package_name) ""
       = pre +:+ PyStr.replace post (mirror_prefix REPO_ROOT package_name) "").
Proof.
  intros Htext. split; [|split].
  - unfold outcome_of, world_after. rewrite update_catalog_run. cbv zeta.
    destruct (isdir (disk w) REPO_ROOT); [|done].
    rewrite Htext. simpl. split; [done|]. by rewrite lookup_insert_eq.
  - apply replace_no_occurrence, mirror_prefix_nonempty.
  - intros pre post -> Hfirst.
    by rewrite replace_first_occurrence by (done || apply mirror_prefix_nonempty).
Qed.

End CatalogExtractor.

Lemma update_catalog_strips_mirror_prefix_witness :
  texts (pybabel_giving example_catalog
           (pybabel_command "/lp" (disk example_world) "napari") "/lp"
           (disk example_world))
    !! catalog_path "/lp" "napari" = Some example_catalog
  ∧ texts (disk (world_after
      (update_catalog "/lp" (pybabel_giving example_catalog) "napari" "v0.4.5")
      example_world))
      !! catalog_path "/lp" "napari"
    = Some (PyStr.replace example_catalog (mirror_prefix "/lp" "napari") "").
Proof.
  assert (Htext :
    texts (pybabel_giving example_catalog
             (pybabel_command "/lp" (disk example_world) "napari") "/lp"
             (disk example_world))
      !! catalog_path "/lp" "napari" = Some example_catalog) by reflexivity.
  split; [exact Htext|].
  destruct (update_catalog_strips_mirror_prefix "/lp"
    (pybabel_giving example_catalog) example_world "napari" "v0.4.5"
    example_catalog Htext) as [Hrun _].
  change (isdir (disk example_world) "/lp") with true in Hrun.
  cbv iota in Hrun. exact (proj2 Hrun).
Defined.

(** C6, as stated, fails: the reference line loses the prefix, but a message
    that names the mirror directory keeps it, since only the directory
    followed by a slash is removed. *)
Lemma catalog_still_names_mirror_root :
  texts (disk (world_after
    (update_catalog "/lp" (pybabel_giving example_catalog) "napari" "v0.4.5")
    example_world))
    !! "/lp/napari/locale/napari.pot"
  = Some ("#: napari/utils/a.py:12" +:+ PyStr.nl
            +:+ "msgid " +:+ PyStr.dquote +:+ "Open /lp/repos/napari"
            +:+ PyStr.dquote +:+ PyStr.nl)
  ∧ PosixPath.join "/lp" [REPOSITORIES_FOLDER; "napari"] = "/lp/repos/napari"
  ∧ PyStr.contains "/lp/repos/napari"
      ("#: napari/utils/a.py:12" +:+ PyStr.nl
         +:+ "msgid " +:+ PyStr.dquote +:+ "Open /lp/repos/napari"
         +:+ PyStr.dquote +:+ PyStr.nl) = true.
Proof. repeat split; vm_compute; reflexivity. Qed.

(** ** The locale hook *)
Section LocaleHook.

Import PreGenProject.
Variable Locale_parse : string → option Locale.

(** C5, as amended: the hook ends with status 1 and one printed line when
    the first form has no hyphen, or Babel does not parse the second form
    or finds no territory in it, or the language and territory Babel found,
    joined by an underscore, are not the second form, or the first form has
    an underscore, or the second form has a hyphen; otherwise it prints
    nothing and ends with status 0. The two forms are never compared with
    each other. *)
Theorem pre_gen_project_fails_iff (locale locale_underscore : string) :
  (status (pre_gen_project Locale_parse locale locale_underscore) ≠ 0%Z
   ↔ PyStr.contains "-" locale = false
     ∨ (Locale_parse locale_underscore = None
        ∨ ∃ babel_locale, Locale_parse locale_underscore = Some babel_locale
                          ∧ territory babel_locale = None)
     ∨ (∃ babel_locale territory_name,
          Locale_parse locale_underscore = Some babel_locale
          ∧ territory babel_locale = Some territory_name
          ∧ language babel_locale +:+ "_" +:+ territory_name ≠ locale_underscore)
     ∨ PyStr.contains "_" locale = true
     ∨ PyStr.contains "-" locale_underscore = true)
  ∧ (status (pre_gen_project Locale_parse locale locale_underscore) = 0%Z
     ∧ printed (pre_gen_project Locale_parse locale locale_underscore) = []
     ∨ status (pre_gen_project Locale_parse locale locale_underscore) = 1%Z
       ∧ length (printed (pre_gen_project Locale_parse locale locale_underscore)) = 1).
Proof.
  unfold pre_gen_project, parsed_differs.
  destruct (PyStr.contains "-" locale) eqn:Hhyphen; simpl;
    [|split; [split; [intros _; by left|done]|by right]].
  destruct (Locale_parse locale_underscore) as [babel_locale|] eqn:Hparse; simpl;
    [|split; [split; [intros _; right; left; by left|done]|by right]].
  destruct (territory babel_locale) as [territory_name|] eqn:Hterritory; simpl;
    [|split; [split; [intros _; right; left; right; by exists babel_locale|done]
             |by right]].
  case_bool_decide as Hdiffers; simpl.
  { split; [|by right]. split; [intros _|done].
    do 2 right. left. by exists babel_locale, territory_name. }
  destruct (PyStr.contains "_" locale) eqn:Hunderscore; simpl;
    [split; [split; [intros _; do 3 right; by left|done]|by right]|].
  destruct (PyStr.contains "-" locale_underscore) eqn:Hhyphen'; simpl;
    [split; [split; [intros _; by do 4 right|done]|by right]|].
  split; [|by left]. split; [done|].
  intros [?|[[?|(l & ? & ?)]|[(l & t & ? & ? & Hne)|[?|?]]]]; simplify_eq.
Qed.

End LocaleHook.

(** C5, as stated, fails: the hook accepts a second form that is not the
    first form with its hyphen turned into an underscore. *)
Lemma hook_accepts_unrelated_forms :
  PreGenProject.pre_gen_project babel_fr_FR "es-ES" "fr_FR"
  = PreGenProject.mkRun [] 0
  ∧ PyStr.replace "es-ES" "-" "_" = "es_ES"
  ∧ "es_ES" ≠ "fr_FR".
Proof. repeat split; vm_compute; (reflexivity || discriminate). Qed.

(** ** Further properties of the Synchronizer and of the main block *)
Section MoreRuns.

Variable REPO_ROOT : string.
Variable run_command : list string → string → Disk → Disk.
Implicit Types (w : World) (args : list string).

Lemma notices_app t1 t2 : notices (t1 ++ t2) = (notices t1 ++ notices t2)%list.
Proof. apply omap_app. Qed.

(** X1: without a file-list section in the configuration the main block
    raises [KeyError] on [files] whatever the arguments, and ends with
    status 1: nothing has been written and no command has been run. *)
Theorem main_without_file_list w args :
  crowdin_yml (disk w) !! "files" = None →
  main REPO_ROOT run_command args w = (Raised (KeyError "files"), w)
  ∧ exit_status (outcome_of (main REPO_ROOT run_command args) w) = 1%Z.
Proof.
  intros Hfiles.
  assert (Hmain : main REPO_ROOT run_command args w = (Raised (KeyError "files"), w)).
  { rewrite main_unfold. unfold mbind at 1. unfold script_bind at 1.
    by rewrite (update_crowdin_config_raises REPO_ROOT w Hfiles). }
  unfold outcome_of. by rewrite Hmain.
Qed.

(** X3: when the mirror directory does not exist and the folder of the
    mirrors does, the Mirror Updater runs the clone of [url] with [.git]
    appended, in that folder and with the package name as target; the exit
    status of the clone is not looked at: when the clone has left a mirror
    directory the checkout of [version] runs in it and the call returns,
    and when it has not the call raises for the missing directory, the
    clone being the only command run. *)
Theorem update_repo_clones_missing_mirror w package_name url version :
  isdir (disk w)
    (PosixPath.join (PosixPath.join REPO_ROOT [REPOSITORIES_FOLDER]) [package_name])
  = false →
  isdir (disk w) (PosixPath.join REPO_ROOT [REPOSITORIES_FOLDER]) = true →
  update_repo REPO_ROOT run_command package_name url version w
  = if isdir
         (run_command ["git"; "clone"; url +:+ ".git"; package_name]
            (PosixPath.join REPO_ROOT [REPOSITORIES_FOLDER]) (disk w))
         (PosixPath.join (PosixPath.join REPO_ROOT [REPOSITORIES_FOLDER])
            [package_name])
    then
      (Returned (),
       mkWorld
         (run_command ["git"; "checkout"; version]
            (PosixPath.join (PosixPath.join REPO_ROOT [REPOSITORIES_FOLDER])
               [package_name])
            (run_command ["git"; "clone"; url +:+ ".git"; package_name]
               (PosixPath.join REPO_ROOT [REPOSITORIES_FOLDER]) (disk w)))
         (trace w
            ++ [Popen ["git"; "clone"; url +:+ ".git"; package_name]
                  (PosixPath.join REPO_ROOT [REPOSITORIES_FOLDER]);
                Popen ["git"; "checkout"; version]
                  (PosixPath.join
                     (PosixPath.join REPO_ROOT [REPOSITORIES_FOLDER])
                     [package_name])]))
    else
      (Raised
         (chdir_error
            (run_command ["git"; "clone"; url +:+ ".git"; package_name]
               (PosixPath.join REPO_ROOT [REPOSITORIES_FOLDER]) (disk w))
            (PosixPath.join (PosixPath.join REPO_ROOT [REPOSITORIES_FOLDER])
               [package_name])),
       mkWorld
         (run_command ["git"; "clone"; url +:+ ".git"; package_name]
            (PosixPath.join REPO_ROOT [REPOSITORIES_FOLDER]) (disk w))
         (trace w
            ++ [Popen ["git"; "clone"; url +:+ ".git"; package_name]
                  (PosixPath.join REPO_ROOT [REPOSITORIES_FOLDER])])).
Proof.
  intros Hdir Hrepos. rewrite update_repo_run. cbv zeta.
  unfold first_git_command. by rewrite Hdir, Hrepos.
Qed.

(** X4: when the extraction tool leaves nothing at the destination, the
    Catalog Extractor raises [FileNotFoundError] for the destination after
    having run the tool: no catalog is written. (The tool runs in the
    repository root; were that directory not there, the call would raise
    for it and leave everything as it was.) *)
Theorem update_catalog_without_output w package_name version :
  texts (run_command (pybabel_command REPO_ROOT (disk w) package_name)
           REPO_ROOT (disk w))
    !! catalog_path REPO_ROOT package_name = None →
  update_catalog REPO_ROOT run_command package_name version w
  = if isdir (disk w) REPO_ROOT
    then
      (Raised (FileNotFoundError (catalog_path REPO_ROOT package_name)),
       mkWorld
         (run_command (pybabel_command REPO_ROOT (disk w) package_name)
            REPO_ROOT (disk w))
         (trace w ++ [Popen (pybabel_command REPO_ROOT (disk w) package_name)
                        REPO_ROOT]))
    else (Raised (chdir_error (disk w) REPO_ROOT), w).
Proof.
  intros Htext. rewrite update_catalog_run. cbv zeta.
  destruct (isdir (disk w) REPO_ROOT); [|done]. by rewrite Htext.
Qed.

(** X16: whether it returns or raises, the Catalog Extractor changes no
    text file other than the catalog of the package: any other path holds
    what the extraction tool left there (or what was there, when the tool
    could not be started). *)
Theorem update_catalog_touches_only_catalog w package_name version fpath :
  fpath ≠ catalog_path REPO_ROOT package_name →
  texts (disk (world_after
    (update_catalog REPO_ROOT run_command package_name version) w)) !! fpath
  = texts
      (if isdir (disk w) REPO_ROOT
       then run_command (pybabel_command REPO_ROOT (disk w) package_name)
              REPO_ROOT (disk w)
       else disk w) !! fpath.
Proof.
  intros Hother. unfold world_after. rewrite update_catalog_run. cbv zeta.
  destruct (isdir (disk w) REPO_ROOT); [|done].
  destruct (texts _ !! catalog_path REPO_ROOT package_name); simpl; [|done].
  by rewrite lookup_insert_ne.
Qed.

Lemma round_error_chdir d package_name cwd :
  cwd ∈ [ PosixPath.join REPO_ROOT [REPOSITORIES_FOLDER];
          PosixPath.join (PosixPath.join REPO_ROOT [REPOSITORIES_FOLDER])
            [package_name];
          REPO_ROOT ] →
  round_error REPO_ROOT package_name (chdir_error d cwd).
Proof. intros Hcwd. right. exists cwd. split; [done|apply chdir_error_cases]. Qed.

(** One round of the loop: one notice; three commands when it returns, and
    otherwise at most three and one of the errors of the round. *)
Lemma update_package_round w (data : gmap string PackageEntry) package_name entry :
  data !! package_name = Some entry →
  notices (trace (world_after
    (update_package REPO_ROOT run_command data package_name) w))
  = (notices (trace w) ++ [package_name])%list
  ∧ length (commands (trace (world_after
      (update_package REPO_ROOT run_command data package_name) w)))
    ≤ length (commands (trace w)) + 3
  ∧ (outcome_of (update_package REPO_ROOT run_command data package_name) w
     = Returned ()
     ∧ length (commands (trace (world_after
         (update_package REPO_ROOT run_command data package_name) w)))
       = length (commands (trace w)) + 3
     ∨ ∃ e,
         outcome_of (update_package REPO_ROOT run_command data package_name) w
         = Raised e
         ∧ round_error REPO_ROOT package_name e).
Proof.
  intros Hentry.
  rewrite (update_package_commands REPO_ROOT run_command w data _ entry Hentry).
  cbv zeta. unfold world_after, outcome_of.
  assert (Hrun : update_package REPO_ROOT run_command data package_name w
    = (update_repo REPO_ROOT run_command package_name (url entry)
         (current_version_tag entry) ;;
       update_catalog REPO_ROOT run_command package_name
         (current_version_tag entry))
        (mkWorld (disk w) (trace w ++ [EchoUpdating package_name]))).
  { unfold update_package, getitem. by rewrite Hentry. }
  rewrite Hrun. clear Hrun. unfold mbind, script_bind.
  rewrite update_repo_run. cbv zeta. cbn [disk trace].
  destruct (isdir (disk w) _); cbn [fst snd disk trace].
  2:{ rewrite notices_app, length_app. simpl. split; [done|]. split; [lia|].
      right. eexists. split; [done|]. apply round_error_chdir. set_solver. }
  destruct (isdir (run_command _ _ _) _); cbn [fst snd disk trace].
  2:{ rewrite !notices_app, length_app. simpl. rewrite !app_nil_r.
      split; [done|]. split; [lia|].
      right. eexists. split; [done|]. apply round_error_chdir. set_solver. }
  rewrite update_catalog_run. cbv zeta. cbn [disk trace].
  destruct (isdir (run_command _ _ _) REPO_ROOT); cbn [fst snd disk trace].
  2:{ rewrite !notices_app, length_app. simpl. rewrite !app_nil_r.
      split; [done|]. split; [lia|].
      right. eexists. split; [done|]. apply round_error_chdir. set_solver. }
  destruct (texts _ !! _); cbn [fst snd disk trace];
    rewrite !notices_app, length_app; simpl; rewrite !app_nil_r;
    (split; [done|]); (split; [lia|]).
  - left. split; [done|lia].
  - right. eexists. split; [done|]. by left.
Qed.

(** The loop announces a prefix of its list, with at most three commands a
    package, and exactly three when it returns. *)
Lemma for_each_update_package (data : gmap string PackageEntry)
    (packages : list string) w :
  Forall (λ package_name, is_Some (data !! package_name)) packages →
  ∃ done : list string,
    done `prefix_of` packages
    ∧ notices (trace (world_after
        (for_each packages (update_package REPO_ROOT run_command data)) w))
      = (notices (trace w) ++ done)%list
    ∧ length (commands (trace (world_after
        (for_each packages (update_package REPO_ROOT run_command data)) w)))
      ≤ length (commands (trace w)) + 3 * length done
    ∧ (outcome_of (for_each packages (update_package REPO_ROOT run_command data)) w
       = Returned ()
       ∧ done = packages
       ∧ length (commands (trace (world_after
           (for_each packages (update_package REPO_ROOT run_command data)) w)))
         = length (commands (trace w)) + 3 * length done
       ∨ ∃ package_name e,
           last done = Some package_name
           ∧ outcome_of
               (for_each packages (update_package REPO_ROOT run_command data)) w
             = Raised e
           ∧ round_error REPO_ROOT package_name e).
Proof.
  intros Hknown. revert w.
  induction Hknown as [|package_name packages [entry Hentry] _ IH]; intros w.
  - exists []. unfold world_after, outcome_of. simpl.
    rewrite app_nil_r. split; [done|]. split; [done|]. split; [lia|].
    left. split; [done|]. split; [done|lia].
  - destruct (update_package_round w data package_name entry Hentry)
      as (Hnotice & Hcount & Hout).
    unfold world_after, outcome_of in *. cbn [for_each].
    unfold mbind, script_bind.
    destruct (update_package REPO_ROOT run_command data package_name w)
      as [[[]|e] w1]; cbn [fst snd] in *.
    + destruct Hout as [[_ Hthree]|(e & Hraised & _)]; [|done].
      destruct (IH w1) as (done & Hprefix & Hnotices & Hcommands & Hend).
      exists (package_name :: done). split; [by apply prefix_cons|].
      rewrite Hnotices, Hnotice, <- app_assoc. split; [done|].
      cbn [length]. split; [lia|].
      destruct Hend as [(Hreturned & -> & Hall)|(last_name & e & Hlast & Hraised & He)].
      * left. split; [done|]. split; [done|]. lia.
      * right. exists last_name, e. split; [|done].
        destruct done; [done|]. by rewrite last_cons, Hlast.
    + exists [package_name]. split; [apply prefix_cons, prefix_nil|].
      split; [done|]. cbn [length]. split; [lia|]. right.
      destruct Hout as [[Hreturned _]|(e' & Hraised & He)]; [done|].
      exists package_name, e. split; [done|]. split; [done|]. congruence.
Qed.

(** X2: with no argument, and a configuration that has a file-list
    section, the packages are taken in increasing order of name, one after
    the other, with at most three commands each. The run returns when every
    package of the map has been announced and has had its three commands;
    otherwise it stops at the first package whose round raises: its catalog
    is not there after the extraction, or a directory in which one of its
    commands is to run is not there. *)
Theorem no_argument_sorted_order w :
  is_Some (file_list (crowdin_yml (disk w))) →
  ∃ done : list string,
    done `prefix_of` sorted (repository_map_yml (disk w))
    ∧ notices (trace (world_after (main REPO_ROOT run_command []) w))
      = (notices (trace w) ++ done)%list
    ∧ length (commands (trace (world_after (main REPO_ROOT run_command []) w)))
      ≤ length (commands (trace w)) + 3 * length done
    ∧ (outcome_of (main REPO_ROOT run_command []) w = Returned ()
       ∧ done = sorted (repository_map_yml (disk w))
       ∧ length (commands (trace (world_after (main REPO_ROOT run_command []) w)))
         = length (commands (trace w)) + 3 * length done
       ∨ ∃ package_name e,
           last done = Some package_name
           ∧ outcome_of (main REPO_ROOT run_command []) w = Raised e
           ∧ round_error REPO_ROOT package_name e).
Proof.
  intros [files Hfiles]. unfold file_list in Hfiles.
  set (data := repository_map_yml (disk w)).
  set (w1 := world_after (update_crowdin_config REPO_ROOT) w).
  assert (Hsync : update_crowdin_config REPO_ROOT w = (Returned (), w1)).
  { unfold w1, world_after.
    by rewrite (update_crowdin_config_writes REPO_ROOT w files Hfiles). }
  assert (Hw1 : commands (trace w1) = commands (trace w)
                ∧ notices (trace w1) = notices (trace w)).
  { unfold w1, world_after.
    rewrite (update_crowdin_config_writes REPO_ROOT w files Hfiles). simpl.
    rewrite commands_app, notices_app. simpl. by rewrite !app_nil_r. }
  destruct Hw1 as [Hcommands1 Hnotices1].
  assert (Hknown : Forall (λ package_name, is_Some (data !! package_name))
                     (sorted data)).
  { apply Forall_forall. intros k Hk. by apply elem_of_sorted. }
  destruct (for_each_update_package data (sorted data) w1 Hknown)
    as (done & Hprefix & Hnotices & Hcommands & Hend).
  rewrite Hcommands1 in Hcommands, Hend. rewrite Hnotices1 in Hnotices.
  assert (Hmain : main REPO_ROOT run_command [] w
    = (for_each (sorted data) (update_package REPO_ROOT run_command data) ;;
       emit EchoUpdated) w1).
  { rewrite main_unfold. unfold mbind at 1. unfold script_bind at 1.
    by rewrite Hsync. }
  exists done. split; [done|].
  unfold world_after, outcome_of in *. rewrite Hmain.
  unfold mbind, script_bind.
  destruct (for_each (sorted data) (update_package REPO_ROOT run_command data) w1)
    as [[[]|e] w2]; cbn [fst snd] in *.
  - unfold emit. cbn [fst snd trace]. rewrite commands_app, notices_app.
    cbn [commands notices omap]. rewrite !app_nil_r, Hnotices.
    split; [done|]. split; [lia|].
    destruct Hend as [(_ & -> & Hall)|(p & e & _ & Hraised & _)]; [|done].
    left. split; [done|]. split; [done|]. lia.
  - rewrite Hnotices. split; [done|]. split; [lia|].
    destruct Hend as [(Hreturned & _)|Hraised]; [done|by right].
Qed.

End MoreRuns.

Lemma main_without_file_list_witness :
  crowdin_yml (disk listless_world) !! "files" = None
  ∧ main "/lp" idle_tools ["napari"] listless_world
    = (Raised (KeyError "files"), listless_world)
  ∧ exit_status (outcome_of (main "/lp" idle_tools ["napari"]) listless_world) = 1%Z.
Proof.
  assert (H : crowdin_yml (disk listless_world) !! "files" = None) by reflexivity.
  split; [exact H|].
  exact (main_without_file_list "/lp" idle_tools listless_world ["napari"] H).
Defined.

Lemma update_repo_clones_missing_mirror_witness :
  isdir (disk example_world) "/lp/repos/plugin-a" = false
  ∧ isdir (disk example_world) "/lp/repos" = true
  ∧ update_repo "/lp" (working_tools example_catalog) "plugin-a"
      "https://example.com/plugin-a" "main" example_world
    = (Returned (),
       mkWorld
         (working_tools example_catalog ["git"; "checkout"; "main"]
            "/lp/repos/plugin-a"
            (working_tools example_catalog
               ["git"; "clone"; "https://example.com/plugin-a.git"; "plugin-a"]
               "/lp/repos" (disk example_world)))
         [Popen ["git"; "clone"; "https://example.com/plugin-a.git"; "plugin-a"]
            "/lp/repos";
          Popen ["git"; "checkout"; "main"] "/lp/repos/plugin-a"])
  ∧ update_repo "/lp" idle_tools "plugin-a" "https://example.com/plugin-a" "main"
      example_world
    = (Raised (FileNotFoundError "/lp/repos/plugin-a"),
       mkWorld (disk example_world)
         [Popen ["git"; "clone"; "https://example.com/plugin-a.git"; "plugin-a"]
            "/lp/repos"]).
Proof.
  assert (Hdir : isdir (disk example_world)
            (PosixPath.join (PosixPath.join "/lp" [REPOSITORIES_FOLDER]) ["plugin-a"])
          = false) by reflexivity.
  assert (Hrepos : isdir (disk example_world)
            (PosixPath.join "/lp" [REPOSITORIES_FOLDER]) = true) by reflexivity.
  split; [exact Hdir|]. split; [exact Hrepos|]. split.
  - rewrite (update_repo_clones_missing_mirror "/lp" (working_tools example_catalog)
               example_world "plugin-a" "https://example.com/plugin-a" "main"
               Hdir Hrepos).
    reflexivity.
  - rewrite (update_repo_clones_missing_mirror "/lp" idle_tools
               example_world "plugin-a" "https://example.com/plugin-a" "main"
               Hdir Hrepos).
    reflexivity.
Defined.

Lemma update_catalog_without_output_witness :
  texts (idle_tools (pybabel_command "/lp" (disk example_world) "napari") "/lp"
           (disk example_world))
    !! catalog_path "/lp" "napari" = None
  ∧ outcome_of (update_catalog "/lp" idle_tools "napari" "v0.4.5") example_world
    = Raised (FileNotFoundError "/lp/napari/locale/napari.pot").
Proof.
  assert (H : texts (idle_tools (pybabel_command "/lp" (disk example_world) "napari")
                       "/lp" (disk example_world))
                !! catalog_path "/lp" "napari" = None) by reflexivity.
  split; [exact H|]. unfold outcome_of.
  rewrite (update_catalog_without_output "/lp" idle_tools example_world
             "napari" "v0.4.5" H).
  reflexivity.
Defined.

Lemma update_catalog_touches_only_catalog_witness :
  "/lp/crowdin.yml" ≠ catalog_path "/lp" "napari"
  ∧ texts (disk (world_after
      (update_catalog "/lp" (pybabel_giving example_catalog) "napari" "v0.4.5")
      example_world)) !! "/lp/crowdin.yml"
    = texts (pybabel_giving example_catalog
               (pybabel_command "/lp" (disk example_world) "napari") "/lp"
               (disk example_world)) !! "/lp/crowdin.yml".
Proof.
  assert (H : "/lp/crowdin.yml" ≠ catalog_path "/lp" "napari") by discriminate.
  split; [exact H|].
  rewrite (update_catalog_touches_only_catalog "/lp" (pybabel_giving example_catalog)
             example_world "napari" "v0.4.5" "/lp/crowdin.yml" H).
  reflexivity.
Defined.

Lemma no_argument_sorted_order_witness :
  is_Some (file_list (crowdin_yml (disk example_world)))
  ∧ ∃ done : list string,
      done `prefix_of` sorted (repository_map_yml (disk example_world))
      ∧ notices (trace (world_after
          (main "/lp" (working_tools example_catalog) []) example_world))
        = (notices (trace example_world) ++ done)%list
      ∧ length (commands (trace (world_after
          (main "/lp" (working_tools example_catalog) []) example_world)))
        ≤ length (commands (trace example_world)) + 3 * length done
      ∧ (outcome_of (main "/lp" (working_tools example_catalog) []) example_world
         = Returned ()
         ∧ done = sorted (repository_map_yml (disk example_world))
         ∧ length (commands (trace (world_after
             (main "/lp" (working_tools example_catalog) []) example_world)))
           = length (commands (trace example_world)) + 3 * length done
         ∨ ∃ package_name e,
             last done = Some package_name
             ∧ outcome_of (main "/lp" (working_tools example_catalog) [])
                 example_world = Raised e
             ∧ round_error "/lp" package_name e).
Proof.
  assert (H : is_Some (file_list (crowdin_yml (disk example_world)))).
  { exists (YSeq []). reflexivity. }
  split; [exact H|].
  exact (no_argument_sorted_order "/lp" (working_tools example_catalog)
           example_world H).
Defined.

(** A run with no argument on the example machine: with tools that work,
    both packages in order and six commands; with a clone that leaves no
    mirror, the first package only, one command, and the error of the
    checkout that could not start. *)
Example no_argument_example :
  notices (trace (world_after
    (main "/lp" (working_tools example_catalog) []) example_world))
  = ["napari"; "plugin-a"]
  ∧ length (commands (trace (world_after
      (main "/lp" (working_tools example_catalog) []) example_world))) = 6
  ∧ outcome_of (main "/lp" (working_tools example_catalog) []) example_world
    = Returned ()
  ∧ notices (trace (world_after (main "/lp" idle_tools []) example_world))
    = ["napari"]
  ∧ length (commands (trace (world_after (main "/lp" idle_tools []) example_world)))
    = 1
  ∧ outcome_of (main "/lp" idle_tools []) example_world
    = Raised (FileNotFoundError "/lp/repos/napari").
Proof. repeat split; vm_compute; reflexivity. Qed.

(** ** The file list and the names of the packages *)

(** X5: the file list the Synchronizer builds depends on the names of the
    packages other than [napari] only: two repository maps with the same such
    names give the same list, whatever their urls and versions and whether or
    not [napari] is among their keys. *)
Theorem crowdin_files_depends_on_names {A B : Type}
    (data1 : gmap string A) (data2 : gmap string B) :
  (∀ k : string, k ≠ "napari" → (is_Some (data1 !! k) ↔ is_Some (data2 !! k))) →
  crowdin_files data1 = crowdin_files data2.
Proof.
  intros Hnames. rewrite !crowdin_files_unfold. do 2 f_equal.
  apply (StronglySorted_unique String.le).
  - apply StronglySorted_filter_keep, StronglySorted_sorted.
  - apply StronglySorted_filter_keep, StronglySorted_sorted.
  - apply NoDup_Permutation.
    + apply NoDup_filter, NoDup_sorted.
    + apply NoDup_filter, NoDup_sorted.
    + intros k. unfold plugin_names.
      rewrite !list_elem_of_filter, !elem_of_sorted.
      split; intros [Hk Hsome]; (split; [done|]); by apply (Hnames k Hk).
Qed.

Lemma crowdin_files_depends_on_names_witness :
  crowdin_files example_map = crowdin_files plugins_only_map.
Proof.
  apply (crowdin_files_depends_on_names example_map plugins_only_map).
  intros k Hk. unfold example_map, plugins_only_map.
  by rewrite lookup_insert_ne.
Defined.

(** ** More on strings *)
Section MoreStrings.

Implicit Types (s a b c old new : string).

Lemma string_app_cons ch a b : String ch a +:+ b = String ch (a +:+ b).
Proof. reflexivity. Qed.

Lemma string_app_empty b : "" +:+ b = b.
Proof. reflexivity. Qed.

Lemma string_app_nil_r a : a +:+ "" = a.
Proof.
  induction a as [|ch a IH]; [done|]. by rewrite string_app_cons, IH.
Qed.

Lemma string_app_assoc a b c : (a +:+ b) +:+ c = a +:+ b +:+ c.
Proof.
  induction a as [|ch a IH]; [done|]. by rewrite !string_app_cons, IH.
Qed.

Lemma string_length_app a b :
  String.length (a +:+ b) = String.length a + String.length b.
Proof.
  induction a as [|ch a IH]; [done|].
  rewrite string_app_cons. simpl. by rewrite IH.
Qed.

Lemma string_app_nonempty a b : a ≠ "" → a +:+ b ≠ "".
Proof. by destruct a. Qed.

Lemma prefix_empty s : String.prefix "" s = true.
Proof. by destruct s. Qed.

(** Two strings with equal prefixes of the same length. *)
Lemma string_app_inj_length a b a' b' :
  String.length a = String.length a' → a +:+ b = a' +:+ b' → a = a' ∧ b = b'.
Proof.
  revert a'. induction a as [|ch a IH]; intros [|ch' a'] Hlen Heq;
    try discriminate Hlen.
  - by rewrite !string_app_empty in Heq.
  - rewrite !string_app_cons in Heq. injection Heq as -> Heq.
    destruct (IH a') as [-> ->]; [by injection Hlen|done|done].
Qed.

Lemma rev_app_acc s acc : String.rev_app s acc = String.rev_app s "" +:+ acc.
Proof.
  revert acc. induction s as [|ch s IH]; intros acc; [done|].
  cbn [String.rev_app]. rewrite (IH (String ch acc)), (IH (String ch "")).
  by rewrite string_app_assoc.
Qed.

Lemma rev_string_app a b : String.rev (a +:+ b) = String.rev b +:+ String.rev a.
Proof.
  unfold String.rev. induction a as [|ch a IH].
  - by rewrite string_app_empty, string_app_nil_r.
  - rewrite string_app_cons. cbn [String.rev_app].
    rewrite (rev_app_acc (a +:+ b)), (rev_app_acc a), IH.
    by rewrite string_app_assoc.
Qed.

Lemma rev_nonempty s : s ≠ "" → String.rev s ≠ "".
Proof.
  destruct s as [|ch s]; [done|]. intros _. unfold String.rev.
  cbn [String.rev_app]. rewrite rev_app_acc.
  by destruct (String.rev_app s "").
Qed.

(** Whether a path ends with a slash is decided by its last component. *)
Lemma endswith_slash_app a b :
  b ≠ "" → PyStr.endswith (a +:+ b) "/" = PyStr.endswith b "/".
Proof.
  intros Hb%rev_nonempty. unfold PyStr.endswith. rewrite rev_string_app.
  destruct (String.rev b) as [|ch r]; [done|].
  rewrite string_app_cons. change (String.rev "/") with "/".
  cbn [String.prefix]. destruct (Ascii.ascii_dec _ ch); [|done].
  by rewrite !prefix_empty.
Qed.

Lemma startswith_slash_app a b :
  a ≠ "" → PyStr.startswith (a +:+ b) "/" = PyStr.startswith a "/".
Proof.
  destruct a as [|ch a]; [done|]. intros _. unfold PyStr.startswith.
  rewrite string_app_cons. cbn [String.prefix].
  destruct (Ascii.ascii_dec _ ch); [|done]. by rewrite !prefix_empty.
Qed.

Lemma contains_cons_false old ch s :
  PyStr.contains old (String ch s) = false →
  String.prefix old (String ch s) = false ∧ PyStr.contains old s = false.
Proof. cbn [PyStr.contains]. by intros [? ?]%orb_false_elim. Qed.

(** A string in which [old] does not occur is returned as it is. *)
Lemma replace_scan_absent old new s :
  PyStr.contains old s = false → PyStr.replace_scan old new 0 s = s.
Proof.
  induction s as [|ch s IH]; [done|].
  intros [Hprefix Hrest]%contains_cons_false.
  cbn [PyStr.replace_scan]. by rewrite Hprefix, IH.
Qed.

(** Removing occurrences never lengthens. *)
Lemma replace_scan_remove_length old skip s :
  String.length (PyStr.replace_scan old "" skip s) ≤ String.length s.
Proof.
  revert skip. induction s as [|ch s IH]; intros skip; [done|].
  cbn [PyStr.replace_scan]. destruct skip as [|skip].
  - destruct (String.prefix old (String ch s)).
    + rewrite string_app_empty. simpl. specialize (IH (String.length old - 1)). lia.
    + simpl. specialize (IH 0). lia.
  - simpl. specialize (IH skip). lia.
Qed.

(** Removing an occurrence that is there shortens. *)
Lemma replace_scan_remove_shorter old s :
  old ≠ "" → PyStr.contains old s = true →
  String.length (PyStr.replace_scan old "" 0 s) < String.length s.
Proof.
  intros Hold. induction s as [|ch s IH].
  - by destruct old.
  - cbn [PyStr.contains PyStr.replace_scan].
    destruct (String.prefix old (String ch s)); simpl.
    + intros _. rewrite string_app_empty.
      pose proof (replace_scan_remove_length old (String.length old - 1) s). lia.
    + intros Hrest. specialize (IH Hrest). lia.
Qed.

End MoreStrings.

(** X6: turning the hyphens of a name into underscores keeps its length, and
    doing it twice is doing it once; the name is returned as it is exactly
    when it has no hyphen. *)
Theorem normalize_name_facts (pkg_name : string) :
  String.length (PyStr.replace pkg_name "-" "_") = String.length pkg_name
  ∧ PyStr.replace (PyStr.replace pkg_name "-" "_") "-" "_"
    = PyStr.replace pkg_name "-" "_"
  ∧ (PyStr.replace pkg_name "-" "_" = pkg_name
     ↔ PyStr.contains "-" pkg_name = false).
Proof.
  assert (Hlength : ∀ s, String.length (PyStr.replace s "-" "_") = String.length s).
  { intros s. rewrite replace_nonempty by done.
    induction s as [|ch s IH]; [done|].
    cbn [PyStr.replace_scan String.prefix].
    destruct (Ascii.ascii_dec _ ch); simpl; [|by rewrite IH].
    rewrite prefix_empty, string_app_cons, string_app_empty. simpl. by rewrite IH. }
  assert (Hkeep : ∀ s, PyStr.contains "-" s = false → PyStr.replace s "-" "_" = s).
  { intros s Hs. rewrite replace_nonempty by done. by apply replace_scan_absent. }
  split; [apply Hlength|]. split.
  - apply Hkeep, normalized_has_no_hyphen.
  - split; [|apply Hkeep]. intros <-. apply normalized_has_no_hyphen.
Qed.

(** X7: the text the Catalog Extractor writes back is never longer than the
    one it read, and it is the same text exactly when the mirror directory
    followed by a slash does not occur in it. *)
Theorem strip_changes_iff_occurs (REPO_ROOT package_name text : string) :
  String.length (PyStr.replace text (mirror_prefix REPO_ROOT package_name) "")
  ≤ String.length text
  ∧ (PyStr.replace text (mirror_prefix REPO_ROOT package_name) "" = text
     ↔ PyStr.contains (mirror_prefix REPO_ROOT package_name) text = false).
Proof.
  pose proof (mirror_prefix_nonempty REPO_ROOT package_name) as Hprefix.
  rewrite replace_nonempty by done. split.
  - apply replace_scan_remove_length.
  - split; [|apply replace_scan_absent].
    intros Hsame.
    destruct (PyStr.contains (mirror_prefix REPO_ROOT package_name) text) eqn:Hin;
      [|done].
    pose proof (replace_scan_remove_shorter _ text Hprefix Hin) as Hshorter.
    rewrite Hsame in Hshorter. lia.
Qed.

(** ** The paths of a package *)
Section Paths.

Implicit Types (REPO_ROOT path name package_name : string).

(** A relative component is appended after one separator. *)
Lemma join_step_relative path name :
  plain_directory path → PyStr.startswith name "/" = false →
  PosixPath.join_step path name = path +:+ "/" +:+ name.
Proof.
  intros [Hpath Hend] Hname. unfold PosixPath.join_step.
  by rewrite Hname, Hend, bool_decide_eq_false_2.
Qed.

(** An absolute component replaces what was joined so far. *)
Lemma join_step_absolute path name :
  PyStr.startswith name "/" = true → PosixPath.join_step path name = name.
Proof. intros Hname. unfold PosixPath.join_step. by rewrite Hname. Qed.

Lemma plain_directory_app path name :
  name ≠ "" → PyStr.endswith name "/" = false →
  plain_directory (path +:+ "/" +:+ name).
Proof.
  intros Hname Hend. split.
  - rewrite <- string_app_assoc. intros Hempty.
    destruct (path +:+ "/"); [done|discriminate Hempty].
  - rewrite <- string_app_assoc. by rewrite endswith_slash_app.
Qed.

(** Rewrites the innermost join of a relative component. *)
Ltac join_relative :=
  match goal with
  | |- context [PosixPath.join_step ?path ?name] =>
      lazymatch path with
      | context [PosixPath.join_step] => fail
      | _ =>
          rewrite (join_step_relative path name)
            by solve [ done
                     | by apply plain_directory_app
                     | by rewrite startswith_slash_app ]
      end
  end.

Lemma mirror_directory_shape REPO_ROOT package_name :
  plain_directory REPO_ROOT → relative_name package_name →
  PosixPath.join REPO_ROOT [REPOSITORIES_FOLDER; package_name]
  = REPO_ROOT +:+ "/repos/" +:+ package_name.
Proof.
  intros Hroot (Hname & Hstart & Hend). unfold PosixPath.join. simpl.
  do 2 join_relative. by rewrite !string_app_assoc.
Qed.

Lemma plugin_catalog_shape REPO_ROOT package_name :
  plain_directory REPO_ROOT → relative_name package_name →
  PosixPath.join REPO_ROOT
    ["plugins"; package_name; "locale"; package_name +:+ ".pot"]
  = REPO_ROOT +:+ "/plugins/" +:+ package_name +:+ "/locale/"
      +:+ package_name +:+ ".pot".
Proof.
  intros Hroot (Hname & Hstart & Hend). unfold PosixPath.join. simpl.
  do 4 join_relative. by rewrite !string_app_assoc.
Qed.

Lemma catalog_path_shape REPO_ROOT package_name :
  plain_directory REPO_ROOT → relative_name package_name →
  catalog_path REPO_ROOT package_name
  = if bool_decide (package_name = "napari")
    then REPO_ROOT +:+ "/napari/locale/napari.pot"
    else REPO_ROOT +:+ "/plugins/" +:+ package_name +:+ "/locale/"
           +:+ package_name +:+ ".pot".
Proof.
  intros Hroot Hname. unfold catalog_path. case_bool_decide as Hnapari.
  - subst package_name. unfold PosixPath.join. simpl.
    do 3 join_relative. by rewrite !string_app_assoc.
  - by apply plugin_catalog_shape.
Qed.

(** X8: with a repository root written without a slash at its end and a
    package name that is one path component, the mirror is
    [REPO_ROOT/repos/name], and the catalog is
    [REPO_ROOT/napari/locale/napari.pot] for [napari] and
    [REPO_ROOT/plugins/name/locale/name.pot] for any other package. *)
Theorem package_paths_shape REPO_ROOT package_name :
  plain_directory REPO_ROOT → relative_name package_name →
  PosixPath.join REPO_ROOT [REPOSITORIES_FOLDER; package_name]
  = REPO_ROOT +:+ "/repos/" +:+ package_name
  ∧ PosixPath.join (PosixPath.join REPO_ROOT [REPOSITORIES_FOLDER]) [package_name]
    = REPO_ROOT +:+ "/repos/" +:+ package_name
  ∧ catalog_path REPO_ROOT package_name
    = if bool_decide (package_name = "napari")
      then REPO_ROOT +:+ "/napari/locale/napari.pot"
      else REPO_ROOT +:+ "/plugins/" +:+ package_name +:+ "/locale/"
             +:+ package_name +:+ ".pot".
Proof.
  intros Hroot Hname. split; [by apply mirror_directory_shape|].
  split; [by apply mirror_directory_shape|]. by apply catalog_path_shape.
Qed.

(** X9: for a package other than [napari] whose name is one path component
    without a hyphen, the catalog is written where the source path of its
    entry in the file list points, under the repository root. *)
Theorem catalog_path_matches_file_list REPO_ROOT package_name :
  plain_directory REPO_ROOT → relative_name package_name →
  package_name ≠ "napari" → PyStr.contains "-" package_name = false →
  ∃ source translation : string,
    plugin_entry package_name = file_entry source translation
    ∧ catalog_path REPO_ROOT package_name = REPO_ROOT +:+ source.
Proof.
  intros Hroot Hname Hnapari Hhyphen.
  exists ("/plugins/" +:+ package_name +:+ "/locale/" +:+ package_name +:+ ".pot"),
    ("/plugins/" +:+ package_name +:+ "/locale"
       +:+ "/%locale_with_underscore%/LC_MESSAGES/%file_name%.po").
  split.
  - unfold plugin_entry. rewrite replace_nonempty by done.
    by rewrite replace_scan_absent.
  - unfold catalog_path. rewrite bool_decide_eq_false_2 by done.
    by apply plugin_catalog_shape.
Qed.

(** X10: two package names that are path components and have the same
    mirror directory, or the same catalog path, are the same name: the
    mirrors and the catalogs of distinct packages are distinct files. *)
Theorem package_paths_injective REPO_ROOT package_name other_name :
  plain_directory REPO_ROOT →
  relative_name package_name → relative_name other_name →
  PosixPath.join REPO_ROOT [REPOSITORIES_FOLDER; package_name]
  = PosixPath.join REPO_ROOT [REPOSITORIES_FOLDER; other_name]
  ∨ catalog_path REPO_ROOT package_name = catalog_path REPO_ROOT other_name →
  package_name = other_name.
Proof.
  intros Hroot Hname Hother [Hmirror|Hcatalog].
  - rewrite !mirror_directory_shape in Hmirror by done.
    by do 2 apply (inj (String.app _)) in Hmirror.
  - rewrite !catalog_path_shape in Hcatalog by done.
    do 2 case_bool_decide; [congruence| | |];
      apply (inj (String.app _)) in Hcatalog.
    + rewrite !string_app_cons in Hcatalog. discriminate Hcatalog.
    + rewrite !string_app_cons in Hcatalog. discriminate Hcatalog.
    + apply (inj (String.app _)) in Hcatalog.
      apply string_app_inj_length in Hcatalog; [by destruct Hcatalog|].
      apply (f_equal String.length) in Hcatalog.
      rewrite !string_length_app in Hcatalog. lia.
Qed.

(** X11: a package name that starts with a slash is taken as a path of its
    own: the mirror directory is the name itself and the catalog is the name
    followed by [.pot], both outside the repository root. *)
Theorem absolute_name_leaves_repo_root REPO_ROOT package_name :
  PyStr.startswith package_name "/" = true →
  PosixPath.join (PosixPath.join REPO_ROOT [REPOSITORIES_FOLDER]) [package_name]
  = package_name
  ∧ PosixPath.join REPO_ROOT [REPOSITORIES_FOLDER; package_name] = package_name
  ∧ catalog_path REPO_ROOT package_name = package_name +:+ ".pot".
Proof.
  intros Hstart.
  assert (Hname : package_name ≠ "") by (by destruct package_name).
  split; [|split].
  - unfold PosixPath.join. simpl. by rewrite (join_step_absolute _ package_name).
  - unfold PosixPath.join. simpl. by rewrite (join_step_absolute _ package_name).
  - unfold catalog_path. rewrite bool_decide_eq_false_2 by (by intros ->).
    unfold PosixPath.join. simpl. apply join_step_absolute.
    by rewrite startswith_slash_app.
Qed.

End Paths.

Lemma package_paths_shape_witness :
  plain_directory "/lp" ∧ relative_name "plugin-a"
  ∧ PosixPath.join "/lp" [REPOSITORIES_FOLDER; "plugin-a"]
    = "/lp" +:+ "/repos/" +:+ "plugin-a"
  ∧ PosixPath.join (PosixPath.join "/lp" [REPOSITORIES_FOLDER]) ["plugin-a"]
    = "/lp" +:+ "/repos/" +:+ "plugin-a"
  ∧ catalog_path "/lp" "plugin-a"
    = if bool_decide ("plugin-a" = "napari")
      then "/lp" +:+ "/napari/locale/napari.pot"
      else "/lp" +:+ "/plugins/" +:+ "plugin-a" +:+ "/locale/"
             +:+ "plugin-a" +:+ ".pot".
Proof.
  assert (Hroot : plain_directory "/lp") by (by split).
  assert (Hname : relative_name "plugin-a") by (by repeat split).
  split; [exact Hroot|]. split; [exact Hname|].
  exact (package_paths_shape "/lp" "plugin-a" Hroot Hname).
Defined.

Lemma catalog_path_matches_file_list_witness :
  plain_directory "/lp" ∧ relative_name "plugin_b"
  ∧ "plugin_b" ≠ "napari" ∧ PyStr.contains "-" "plugin_b" = false
  ∧ ∃ source translation : string,
      plugin_entry "plugin_b" = file_entry source translation
      ∧ catalog_path "/lp" "plugin_b" = "/lp" +:+ source.
Proof.
  assert (Hroot : plain_directory "/lp") by (by split).
  assert (Hname : relative_name "plugin_b") by (by repeat split).
  assert (Hnapari : "plugin_b" ≠ "napari") by discriminate.
  assert (Hhyphen : PyStr.contains "-" "plugin_b" = false) by reflexivity.
  split; [exact Hroot|]. split; [exact Hname|].
  split; [exact Hnapari|]. split; [exact Hhyphen|].
  exact (catalog_path_matches_file_list "/lp" "plugin_b" Hroot Hname Hnapari Hhyphen).
Defined.

Lemma package_paths_injective_witness :
  plain_directory "/lp" ∧ relative_name "plugin-a"
  ∧ catalog_path "/lp" "plugin-a" = catalog_path "/lp" "plugin-a"
  ∧ "plugin-a" = "plugin-a".
Proof.
  assert (Hroot : plain_directory "/lp") by (by split).
  assert (Hname : relative_name "plugin-a") by (by repeat split).
  assert (Hsame : catalog_path "/lp" "plugin-a" = catalog_path "/lp" "plugin-a")
    by reflexivity.
  split; [exact Hroot|]. split; [exact Hname|]. split; [exact Hsame|].
  exact (package_paths_injective "/lp" "plugin-a" "plugin-a" Hroot Hname Hname
           (or_intror Hsame)).
Defined.

Lemma absolute_name_leaves_repo_root_witness :
  PyStr.startswith "/tmp/x" "/" = true
  ∧ PosixPath.join (PosixPath.join "/lp" [REPOSITORIES_FOLDER]) ["/tmp/x"] = "/tmp/x"
  ∧ PosixPath.join "/lp" [REPOSITORIES_FOLDER; "/tmp/x"] = "/tmp/x"
  ∧ catalog_path "/lp" "/tmp/x" = "/tmp/x" +:+ ".pot".
Proof.
  assert (Hstart : PyStr.startswith "/tmp/x" "/" = true) by reflexivity.
  split; [exact Hstart|].
  exact (absolute_name_leaves_repo_root "/lp" "/tmp/x" Hstart).
Defined.

(** ** The folders given to the extraction tool *)
Section Folders.

Import DirTree.
Implicit Types (root : string) (n : node) (entries : list (string * node)).

(** Induction on a tree, with the property known for every entry. *)
Lemma node_induction (P : node → Prop) :
  P File →
  (∀ entries, Forall (λ entry, P entry.2) entries → P (Dir entries)) →
  ∀ n, P n.
Proof.
  intros Hfile Hdir. fix IH 1. intros [|entries]; [exact Hfile|].
  apply Hdir. induction entries as [|[name child] entries IHentries].
  - constructor.
  - constructor; [apply IH|exact IHentries].
Qed.

(** The triples of a directory are those of its entries, then its own. *)
Lemma walk_dir root entries :
  walk root (Dir entries)
  = (concat (map (λ entry, walk (PosixPath.join root [entry.1]) entry.2) entries)
       ++ [(root, dirs_of entries, nondirs_of entries)])%list.
Proof.
  cbn [walk]. f_equal.
  induction entries as [|[name [|sub]] entries IH]; [done| |].
  - cbn [map concat]. by rewrite IH.
  - cbn [map concat]. by rewrite IH.
Qed.

Lemma append_names root (names folders : list string) :
  fold_left
    (λ (folders : list string) name,
       (folders ++ [PosixPath.join root [name]])%list)
    names folders
  = (folders ++ map (λ name, PosixPath.join root [name]) names)%list.
Proof.
  revert folders.
  induction names as [|name names IH]; intros folders; cbn [fold_left map].
  - by rewrite app_nil_r.
  - by rewrite IH, <- app_assoc.
Qed.

Lemma append_triples (triples : list (string * list string * list string))
    (folders : list string) :
  fold_left
    (λ (folders : list string) '(root, dirs, _files),
       fold_left
         (λ (folders : list string) name,
            (folders ++ [PosixPath.join root [name]])%list)
         dirs folders)
    triples folders
  = (folders ++ concat (map joined triples))%list.
Proof.
  revert folders.
  induction triples as [|[[root dirs] files] triples IH]; intros folders;
    cbn [fold_left map concat].
  - by rewrite app_nil_r.
  - by rewrite IH, append_names, <- app_assoc.
Qed.

Lemma get_all_dirs_walk root n :
  _get_all_dirs root n = concat (map joined (walk root n)).
Proof. unfold _get_all_dirs. by rewrite append_triples. Qed.

End Folders.

(** ** What [_get_all_dirs] returns *)
Section FoldersOfTree.

Import DirTree.
Implicit Types (root : string) (n : node) (entries : list (string * node)).

Lemma get_all_dirs_file root : _get_all_dirs root File = [].
Proof. reflexivity. Qed.

Lemma concat_joined_concat
    (groups : list (list (string * list string * list string))) :
  concat (map joined (concat groups))
  = concat (map (λ triples, concat (map joined triples)) groups).
Proof.
  induction groups as [|triples groups IH]; [done|].
  cbn [concat map]. by rewrite map_app, concat_app, IH.
Qed.

Lemma get_all_dirs_dir root entries :
  _get_all_dirs root (Dir entries)
  = (concat
       (map (λ entry, _get_all_dirs (PosixPath.join root [entry.1]) entry.2)
          entries)
       ++ map (λ name, PosixPath.join root [name]) (dirs_of entries))%list.
Proof.
  rewrite get_all_dirs_walk, walk_dir, map_app, concat_app.
  cbn [map concat]. rewrite app_nil_r. f_equal.
  rewrite concat_joined_concat, map_map. f_equal.
  apply map_ext. intros entry. by rewrite get_all_dirs_walk.
Qed.

(** X12: the folders found under a directory are those found under each
    of its entries, in the order of the listing, followed by its own
    subdirectories, so that a directory comes after everything below it;
    what is not a directory gives no folder. *)
Theorem get_all_dirs_directory root entries :
  _get_all_dirs root File = []
  ∧ _get_all_dirs root (Dir entries)
    = (concat
         (map (λ entry, _get_all_dirs (PosixPath.join root [entry.1]) entry.2)
            entries)
         ++ map (λ name, PosixPath.join root [name]) (dirs_of entries))%list.
Proof.
  split; [reflexivity|].
  rewrite !get_all_dirs_walk, walk_dir, map_app, concat_app.
  cbn [map concat]. rewrite app_nil_r. f_equal.
  rewrite concat_joined_concat, map_map. f_equal.
  apply map_ext. intros [name child]. cbn [fst snd].
  by rewrite get_all_dirs_walk.
Qed.

(** X13: a directory none of whose entries is a directory gives no folder
    at all: the files at the top of a mirror are in none of the folders
    handed to the extraction tool. *)
Theorem get_all_dirs_without_subdirectory root entries :
  dirs_of entries = [] → _get_all_dirs root (Dir entries) = [].
Proof.
  intros Hdirs. rewrite get_all_dirs_dir, Hdirs. cbn [map].
  rewrite app_nil_r.
  induction entries as [|[name [|sub]] entries IH]; [done| |].
  - cbn [map concat]. rewrite get_all_dirs_file. by apply IH.
  - discriminate Hdirs.
Qed.

Lemma well_named_entries entries :
  well_named (Dir entries)
  ↔ Forall (λ entry, relative_name entry.1 ∧ well_named entry.2) entries.
Proof.
  cbn [well_named]. induction entries as [|entry entries IH].
  - split; [constructor|done].
  - rewrite Forall_cons, <- IH. tauto.
Qed.

Lemma dirs_of_elem entries name :
  name ∈ dirs_of entries → ∃ child, (name, child) ∈ entries.
Proof.
  unfold dirs_of. rewrite list_elem_of_omap.
  intros ([name' child] & Hin & Hname). simpl in Hname.
  destruct child; [done|]. injection Hname as <-. by eexists.
Qed.

(** X14: when the directory walked is written without a slash at its end
    and every name in the tree is one path component, each folder returned
    is the directory walked, a slash, and a path that is not empty: the
    folders are all strictly below the directory, which is not one of
    them. *)
Theorem get_all_dirs_below_root root n :
  plain_directory root → well_named n →
  Forall (λ folder, ∃ rest, rest ≠ "" ∧ folder = root +:+ "/" +:+ rest)
    (_get_all_dirs root n).
Proof.
  revert root. induction n as [|entries IH] using node_induction;
    intros root Hroot Hnamed.
  { rewrite get_all_dirs_file. constructor. }
  apply well_named_entries in Hnamed.
  rewrite get_all_dirs_dir. apply Forall_app. split.
  - apply Forall_concat, Forall_fmap, Forall_forall.
    intros [name child] Hentry. simpl.
    rewrite Forall_forall in IH, Hnamed.
    destruct (Hnamed _ Hentry) as [(Hname & Hstart & Hend) Hchild].
    simpl in *. unfold PosixPath.join. cbn [fold_left].
    rewrite join_step_relative by done.
    eapply Forall_impl.
    + apply (IH _ Hentry); [by apply plain_directory_app|done].
    + intros folder (rest & Hrest & ->). exists (name +:+ "/" +:+ rest).
      split; [by apply string_app_nonempty|].
      by rewrite !string_app_assoc.
  - apply Forall_fmap, Forall_forall. intros name [child Hentry]%dirs_of_elem.
    rewrite Forall_forall in Hnamed.
    destruct (Hnamed _ Hentry) as [(Hname & Hstart & Hend) _]. simpl in *.
    exists name. split; [done|].
    unfold PosixPath.join. cbn [fold_left]. by rewrite join_step_relative.
Qed.

End FoldersOfTree.

Lemma get_all_dirs_without_subdirectory_witness :
  DirTree.dirs_of [("setup.py", DirTree.File); ("README.md", DirTree.File)] = []
  ∧ DirTree._get_all_dirs "/lp/repos/napari"
      (DirTree.Dir [("setup.py", DirTree.File); ("README.md", DirTree.File)]) = [].
Proof.
  assert (H : DirTree.dirs_of
                [("setup.py", DirTree.File); ("README.md", DirTree.File)] = [])
    by reflexivity.
  split; [exact H|].
  exact (get_all_dirs_without_subdirectory "/lp/repos/napari" _ H).
Defined.

Lemma get_all_dirs_below_root_witness :
  plain_directory "/lp/repos/napari" ∧ well_named example_tree
  ∧ Forall (λ folder, ∃ rest, rest ≠ "" ∧ folder = "/lp/repos/napari" +:+ "/" +:+ rest)
      (DirTree._get_all_dirs "/lp/repos/napari" example_tree).
Proof.
  assert (Hroot : plain_directory "/lp/repos/napari") by (by split).
  assert (Hnamed : well_named example_tree) by (by repeat split).
  split; [exact Hroot|]. split; [exact Hnamed|].
  exact (get_all_dirs_below_root "/lp/repos/napari" example_tree Hroot Hnamed).
Defined.

(** The folders of the example mirror: the deepest first. *)
Example get_all_dirs_example :
  DirTree._get_all_dirs "/lp/repos/napari" example_tree
  = ["/lp/repos/napari/napari/utils"; "/lp/repos/napari/napari";
     "/lp/repos/napari/docs"].
Proof. reflexivity. Qed.

(** ** What the locale hook accepts *)
Section AcceptedLocales.

Import PreGenProject.
Variable Locale_parse : string → option Locale.

Lemma contains_middle (a sub b : string) :
  PyStr.contains sub (a +:+ sub +:+ b) = true.
Proof.
  induction a as [|ch a IH].
  - rewrite string_app_empty. destruct (sub +:+ b) eqn:Hs.
    + cbn [PyStr.contains]. rewrite <- Hs, prefix_app. done.
    + cbn [PyStr.contains]. rewrite <- Hs, prefix_app. done.
  - rewrite string_app_cons. cbn [PyStr.contains]. rewrite IH.
    apply orb_true_r.
Qed.

(** X15: a pair the hook accepts has a hyphen and no underscore in its
    first form, and an underscore and no hyphen in its second form: the two
    forms are never the same string, and a pair made of one string twice is
    always refused. *)
Theorem accepted_forms_differ (locale locale_underscore : string) :
  status (pre_gen_project Locale_parse locale locale_underscore) = 0%Z →
  PyStr.contains "-" locale = true
  ∧ PyStr.contains "_" locale = false
  ∧ PyStr.contains "_" locale_underscore = true
  ∧ PyStr.contains "-" locale_underscore = false
  ∧ locale ≠ locale_underscore.
Proof.
  unfold pre_gen_project, parsed_differs.
  destruct (PyStr.contains "-" locale) eqn:Hhyphen; simpl; [|done].
  destruct (Locale_parse locale_underscore) as [babel_locale|]; simpl; [|done].
  destruct (territory babel_locale) as [territory_name|]; simpl; [|done].
  case_bool_decide as Hparsed; simpl; [done|].
  destruct (PyStr.contains "_" locale) eqn:Hunderscore; simpl; [done|].
  destruct (PyStr.contains "-" locale_underscore) eqn:Hhyphen'; simpl; [done|].
  intros _.
  assert (Hin : PyStr.contains "_" locale_underscore = true).
  { rewrite <- Hparsed. apply contains_middle. }
  repeat split; try done. intros ->. congruence.
Qed.

End AcceptedLocales.

Lemma accepted_forms_differ_witness :
  PreGenProject.status (PreGenProject.pre_gen_project babel_fr_FR "fr-FR" "fr_FR")
  = 0%Z
  ∧ PyStr.contains "-" "fr-FR" = true
  ∧ PyStr.contains "_" "fr-FR" = false
  ∧ PyStr.contains "_" "fr_FR" = true
  ∧ PyStr.contains "-" "fr_FR" = false
  ∧ "fr-FR" ≠ "fr_FR".
Proof.
  assert (H : PreGenProject.status
                (PreGenProject.pre_gen_project babel_fr_FR "fr-FR" "fr_FR") = 0%Z)
    by reflexivity.
  split; [exact H|].
  exact (accepted_forms_differ babel_fr_FR "fr-FR" "fr_FR" H).
Defined.
